(** * MinecraftResourcePackMaker: the asset workflow of [src/__init__.py]

    A shallow embedding of the module's image normalizer ([process_image]),
    asset catalog ([get_resources], [get_textures], [get_sounds],
    [get_models]), assignment table ([assigned_files]) and the two
    handlers [assign_file] and [submit_file], with the properties of the
    design document stated and settled against them. *)

From stdpp Require Import gmap strings list pretty sorting.
From Stdlib Require Import ZArith QArith Qabs Qround Qminmax Lia Ascii Sorted.

Local Open Scope Z_scope.

(** ** Python exceptions and results *)

Inductive exn : Type :=
| ZeroDivisionError
| OverflowError
| ValueError (msg : string)
| RuntimeError (msg : string)
| FileNotFoundError
| FileExistsError
| UnidentifiedImageError
| CouldntDecodeError
| AttributeError
| IndexError
| NotADirectoryError
| IsADirectoryError
| Forbidden
| HTTPException
| InteractionResponded.

Inductive result (A : Type) : Type :=
| Ok (a : A)
| Raise (e : exn).
Arguments Ok {A} a.
Arguments Raise {A} e.

#[global] Instance result_ret : MRet result := fun A a => Ok a.

#[global] Instance result_bind : MBind result := fun A B k r =>
  match r with
  | Ok a => k a
  | Raise e => Raise e
  end.

(** ** Python numbers

    A Python [int] is a [Z].  A finite Python [float] is the rational number
    it denotes, a point of the binary64 grid; every float operation is the
    exact operation followed by [RN], IEEE round-to-nearest-even with 53
    bits of precision and gradual underflow.  [Q] has one zero, so the sign
    of a float zero is not represented. *)

Module PyNum.

Definition prec : Z := 53.
Definition emin : Z := -1074.
Definition emax : Z := 1024.

(** The fraction [(n/d) / 2^e] as a numerator and a denominator. *)
Definition scaled (n d e : Z) : Z * Z :=
  (n * 2 ^ Z.max 0 (- e), d * 2 ^ Z.max 0 e).

(** [floor (log2 (n/d))] for positive [n] and [d]. *)
Definition ilog2_frac (n d : Z) : Z :=
  let l := Z.log2 n - Z.log2 d in
  let '(N, D) := scaled n d l in
  if D <=? N then l else l - 1.

Definition round_half_even (N D : Z) : Z :=
  let q := N / D in
  match 2 * (N mod D) ?= D with
  | Lt => q
  | Gt => q + 1
  | Eq => if Z.even q then q else q + 1
  end.

(** The number [m * 2^e]. *)
Definition dyadic (m e : Z) : Q :=
  if 0 <=? e then inject_Z (m * 2 ^ e) else Qmake m (Z.to_pos (2 ^ (- e))).

Definition RN_pos (n d : Z) : Q :=
  let e := Z.max (ilog2_frac n d - (prec - 1)) emin in
  let '(N, D) := scaled n d e in
  dyadic (round_half_even N D) e.

Definition RN (x : Q) : Q :=
  match Qnum x with
  | 0 => 0%Q
  | Zpos n => RN_pos (Zpos n) (Zpos (Qden x))
  | Zneg n => Qopp (RN_pos (Zpos n) (Zpos (Qden x)))
  end.

(** The first power of two that no finite float reaches. *)
Definition overflow_threshold : Q := inject_Z (2 ^ emax).

Definition finite (x : Q) : bool :=
  negb (Qle_bool overflow_threshold (Qabs x)).

Definition Qlt_bool (x y : Q) : bool := negb (Qle_bool y x).

(** [a / b] on ints: the correctly rounded quotient. *)
Definition int_truediv (a b : Z) : result Q :=
  if b =? 0 then Raise ZeroDivisionError
  else
    let r := RN (inject_Z a / inject_Z b)%Q in
    if finite r then Ok r else Raise OverflowError.

(** [a // b] on ints. *)
Definition int_floordiv (a b : Z) : result Z :=
  if b =? 0 then Raise ZeroDivisionError else Ok (a / b).

(** The conversion of an int operand of a float operation. *)
Definition float_of_int (z : Z) : result Q :=
  let r := RN (inject_Z z) in
  if finite r then Ok r else Raise OverflowError.

(** C's [fmod]: exact, with the sign of the dividend. *)
Definition fmod (vx wx : Q) : Q :=
  let t := (vx / wx)%Q in
  (vx - wx * inject_Z (Z.quot (Qnum t) (Zpos (Qden t))))%Q.

(** [float.__floordiv__], as CPython's [_float_div_mod] computes it. *)
Definition float_floordiv (vx wx : Q) : result Q :=
  if Qeq_bool wx 0 then Raise ZeroDivisionError
  else
    let md := fmod vx wx in
    let div := RN (RN (vx - md) / wx) in
    let div :=
      if negb (Qeq_bool md 0) && negb (Bool.eqb (Qlt_bool wx 0) (Qlt_bool md 0))
      then RN (div - 1) else div in
    if negb (Qeq_bool div 0) then
      let fl := inject_Z (Qfloor div) in
      if Qlt_bool (1 # 2) (RN (div - fl)) then Ok (RN (fl + 1)) else Ok fl
    else Ok 0%Q.

(** [vx // w] for a float [vx] and an int [w]. *)
Definition float_floordiv_int (vx : Q) (w : Z) : result Q :=
  wx ← float_of_int w; float_floordiv vx wx.

(** [round(x)] with one argument: the nearest int, ties to even. *)
Definition py_round (x : Q) : Z :=
  round_half_even (Qnum x) (Zpos (Qden x)).

End PyNum.

Import PyNum.

(** ** Media blobs and the two decoders

    A file's bytes are modelled by what the decoders make of them: an image
    of some size (Pillow), a sound (pydub), or bytes neither of them
    accepts.  Pixel and sample data are kept symbolically. *)

Inductive pixels : Type :=
| Pixels (id : N)
| Converted (mode : string) (p : pixels)
| Resized (w h : Z) (p : pixels).

Record image : Type := { img_size : Z * Z; img_pixels : pixels }.

Record sound : Type := { channels : Z; frame_rate : Z; samples : N }.

Inductive blob : Type :=
| ImageBytes (img : image)
| AudioBytes (snd : sound)
| OtherBytes (text : string).

#[global] Instance pixels_eq_dec : EqDecision pixels.
Proof. solve_decision. Defined.
#[global] Instance image_eq_dec : EqDecision image.
Proof. solve_decision. Defined.
#[global] Instance sound_eq_dec : EqDecision sound.
Proof. solve_decision. Defined.
#[global] Instance blob_eq_dec : EqDecision blob.
Proof. solve_decision. Defined.

Module PIL.

(** [Image.MAX_IMAGE_PIXELS], Pillow's default. *)
Definition MAX_IMAGE_PIXELS : Z := 89478485.

(** The size check of [Image.open]: a file that declares more than
    [MAX_IMAGE_PIXELS] pixels draws a [DecompressionBombWarning], and one
    with more than twice as many is refused with [DecompressionBombError];
    within the limit the check passes in silence. *)
Definition within_pixel_limit (size : Z * Z) : bool :=
  Z.max 1 size.1 * Z.max 1 size.2 <=? MAX_IMAGE_PIXELS.

(** [Image.open] on bytes: [ImageBytes img] stands for the bytes of a file
    that Pillow decodes, to [img]. *)
Definition open (b : blob) : result image :=
  match b with
  | ImageBytes img => Ok img
  | _ => Raise UnidentifiedImageError
  end.

Definition convert (mode : string) (img : image) : image :=
  {| img_size := img_size img; img_pixels := Converted mode (img_pixels img) |}.

(** [Image.resize]: a copy when the size is unchanged; Pillow's resampler
    refuses a target with a side below one pixel. *)
Definition resize (size : Z * Z) (img : image) : result image :=
  if decide (img_size img = size) then Ok img
  else if (size.1 <? 1) || (size.2 <? 1)
  then Raise (ValueError "height and width must be > 0")
  else Ok {| img_size := size; img_pixels := Resized size.1 size.2 (img_pixels img) |}.

(** [Image.save(buffer, format="PNG")]. *)
Definition save (img : image) : blob := ImageBytes img.

End PIL.

Module pydub.

(** [AudioSegment.from_file]: for an image ffprobe reports streams, none of
    them audio, and pydub indexes the first audio stream; bytes that ffmpeg
    cannot read at all fail to decode. *)
Definition from_file (b : blob) : result sound :=
  match b with
  | AudioBytes snd => Ok snd
  | ImageBytes _ => Raise IndexError
  | OtherBytes _ => Raise CouldntDecodeError
  end.

Definition set_channels (n : Z) (snd : sound) : sound :=
  {| channels := n; frame_rate := frame_rate snd; samples := samples snd |}.

Definition set_frame_rate (r : Z) (snd : sound) : sound :=
  {| channels := channels snd; frame_rate := r; samples := samples snd |}.

Definition export (snd : sound) : blob := AudioBytes snd.

End pydub.

(** ** Paths and the directory tree *)

Abbreviation path := (list string).

Inductive node : Type :=
| File (content : blob)
| Dir.

#[global] Instance node_eq_dec : EqDecision node.
Proof. solve_decision. Defined.

Abbreviation tree := (gmap path node).

Definition is_file (fs : tree) (p : path) : bool :=
  match fs !! p with Some (File _) => true | _ => false end.

Definition is_dir (fs : tree) (p : path) : bool :=
  match fs !! p with Some Dir => true | _ => false end.

(** [str.rfind(".")], scanning from index [i]. *)
Fixpoint rfind_dot (s : string) (i : nat) (found : option nat) : option nat :=
  match s with
  | EmptyString => found
  | String c s' => rfind_dot s' (S i) (if Ascii.eqb c "."%char then Some i else found)
  end.

(** [PurePath.name] and [PurePath.suffix]. *)
Definition name (p : path) : string := default ""%string (last p).

Definition suffix (p : path) : string :=
  let n := name p in
  match rfind_dot n 0 None with
  | Some i =>
      if (0 <? i)%nat && (i <? String.length n - 1)%nat
      then String.substring i (String.length n - i) n
      else ""%string
  | None => ""%string
  end.

(** [PurePath.parents]: the proper ancestors, nearest first. *)
Fixpoint parents_rev (p : path) : list path :=
  match p with
  | [] => []
  | x :: q => [] :: ((x ::.) <$> parents_rev q)
  end.

Definition parents (p : path) : list path := reverse (parents_rev p).

(** [PurePath.relative_to]. *)
Fixpoint relative_to (p root : path) {struct root} : result path :=
  match root, p with
  | [], _ => Ok p
  | r :: root', x :: p' =>
      if decide (r = x) then relative_to p' root'
      else Raise (ValueError "path is not in the subpath")
  | _ :: _, [] => Raise (ValueError "path is not in the subpath")
  end.

(** The Python values that meet in a comparison here, and [==] on them:
    a [str] and a path never compare equal. *)
Inductive pyobj : Type :=
| PyStr (s : string)
| PyPath (p : path).

Definition py_eq (a b : pyobj) : bool :=
  match a, b with
  | PyStr s, PyStr t => bool_decide (s = t)
  | PyPath p, PyPath q => bool_decide (p = q)
  | _, _ => false
  end.

(** [x in seq] for a sequence without its own [__contains__]. *)
Definition py_in (x : pyobj) (seq : list pyobj) : bool := existsb (py_eq x) seq.

(** ** The asset catalog *)

(** [root.rglob("*")]: every entry strictly below [root]. *)
Definition rglob (fs : tree) (root : path) : list path :=
  filter (fun p => root `prefix_of` p /\ p <> root) (map_to_list fs).*1.

Definition get_resources (fs : tree) (root : path) : list path :=
  filter (fun p => is_file fs p = true) (rglob fs root).

Definition get_sounds (fs : tree) (root : path) : list path :=
  filter (fun p => suffix p = ".ogg"%string) (get_resources fs root).

Definition get_textures (fs : tree) (root : path) : list path :=
  let root :=
    if is_dir fs (root ++ ["assets"; "minecraft"]%string)
    then root ++ ["assets"; "minecraft"]%string else root in
  filter (fun p => suffix p = ".png"%string) (get_resources fs root).

Definition get_models (fs : tree) (root : path) : list path :=
  filter (fun p => suffix p = ".json"%string /\
                   py_in (PyStr "models") (PyPath <$> parents p) = true)
         (get_resources fs root).

(** What the two buttons hand out: textures and sounds. *)
Definition distributable (fs : tree) (root : path) : list path :=
  get_textures fs root ++ get_sounds fs root.

(** ** process_image and process_sound *)

(** Lines 74-81 of [process_image]: the size handed to [resize]. *)
Definition target_size (original_x original_y new_x new_y : Z) : result (Z * Z) :=
  rx ← int_truediv new_x original_x;
  ry ← int_truediv new_y original_y;
  if Qlt_bool ry rx then
    fx ← int_truediv (new_y * original_x) original_y;
    qx ← float_floordiv_int fx original_x;
    qy ← int_floordiv new_y original_y;
    Ok (py_round qx * original_x, qy * original_y)
  else
    fy ← int_truediv (new_x * original_y) original_x;
    qx ← int_floordiv new_x original_x;
    qy ← float_floordiv_int fy original_y;
    Ok (qx * original_x, py_round qy * original_y).

Definition open_path (fs : tree) (p : path) : result blob :=
  match fs !! p with
  | Some (File b) => Ok b
  | Some Dir => Raise IsADirectoryError
  | None => Raise FileNotFoundError
  end.

Definition process_image (fs : tree) (image : blob) (original_path : path)
  : result blob :=
  orig ← open_path fs original_path;
  oimg ← PIL.open orig;
  let '(original_x, original_y) := img_size oimg in
  img ← PIL.open image;
  let img := PIL.convert "RGBA" img in
  let '(new_x, new_y) := img_size img in
  size ← target_size original_x original_y new_x new_y;
  img ← PIL.resize size img;
  Ok (PIL.save img).

Definition process_sound (sound : blob) : result blob :=
  snd ← pydub.from_file sound;
  let snd := pydub.set_channels 1 snd in
  let snd := pydub.set_frame_rate 16000 snd in
  Ok (pydub.export snd).

(** The sizes Pillow can report, and far more: positive and below [2^52]. *)
Definition dim (d : Z) : Prop := 0 < d < 2 ^ 52.

(** ** The assignment table

    [assigned_files (user_id INTEGER PRIMARY KEY, file_path TEXT)]: the rows
    in rowid order, which for an integer primary key is the order of
    [user_id].  A [file_path] is kept as the relative path it spells. *)

Abbreviation table := (list (Z * path)).

Module Sql.

(** [SELECT user_id FROM assigned_files WHERE file_path = ?], [fetchone()]. *)
Definition select_user_id (t : table) (file_path : path) : option Z :=
  fst <$> head (filter (fun r => r.2 = file_path) t).

(** [SELECT file_path FROM assigned_files], [fetchall()]. *)
Definition select_file_paths (t : table) : list path := t.*2.

Fixpoint insert_row (r : Z * path) (t : table) : table :=
  match t with
  | [] => [r]
  | r' :: t' => if r.1 <? r'.1 then r :: r' :: t' else r' :: insert_row r t'
  end.

(** [INSERT OR REPLACE INTO assigned_files (user_id, file_path) VALUES (?, ?)]:
    the row with the same primary key goes, the new row comes. *)
Definition insert_or_replace (user_id : Z) (file_path : path) (t : table) : table :=
  insert_row (user_id, file_path) (filter (fun r => r.1 <> user_id) t).

(** [DELETE FROM assigned_files WHERE file_path = ?]. *)
Definition delete_file_path (file_path : path) (t : table) : table :=
  filter (fun r => r.2 <> file_path) t.

End Sql.

(** ** The pack on disk, the messages sent, and the handlers' monad

    A pack is the directory [storage_path / message.id], called [root]
    below, with its files and its [assigned_files.db].  What a handler sends
    to Discord is recorded as a list of events; a send is taken to succeed,
    except the direct message of [assign_file], whose outcome is an input,
    and a second answer through [interaction.response], which raises. *)

Record world : Type := { files : tree; assigned_files : table }.

Record attachment : Type := { content_type : option string; data : blob }.

Inductive event : Type :=
| Reply (content : string)
| ManagerEdit (content : string) (resource_pack : list (path * blob))
| UserSend (user : Z) (footer : path) (filename : string) (file : blob)
| ResponseDefer
| ResponseSendMessage (content : string)
| FollowupSend (content : string)
| AssignMsgEdit.

(** What [interaction.user.send] comes back with. *)
Inductive delivery : Type :=
| Delivered (jump_url : string)
| Refused (e : exn).

(** A handler runs on the pack and the messages sent so far, and returns or
    raises. *)
Definition action (A : Type) : Type :=
  world * list event -> (world * list event) * result A.

#[global] Instance action_ret : MRet action := fun A a s => (s, Ok a).

#[global] Instance action_bind : MBind action := fun A B k m s =>
  match m s with
  | (s', Ok a) => k a s'
  | (s', Raise e) => (s', Raise e)
  end.

Definition raise {A : Type} (e : exn) : action A := fun s => (s, Raise e).

Definition lift {A : Type} (r : result A) : action A := fun s => (s, r).

Definition emit (ev : event) : action unit :=
  fun s => ((s.1, s.2 ++ [ev]), Ok ()).

Definition read {A : Type} (f : world -> A) : action A :=
  fun s => (s, Ok (f s.1)).

(** [interaction.response.is_done()]: discord.py lets [interaction.response]
    answer an interaction once, with a defer or with a message; read off
    what was sent so far. *)
Definition is_done (sent : list event) : bool :=
  existsb (fun ev => match ev with
                     | ResponseDefer | ResponseSendMessage _ => true
                     | _ => false
                     end) sent.

(** [interaction.response.send_message]: raises once the response is used. *)
Definition response_send_message (content : string) : action unit :=
  fun s =>
    if is_done s.2 then (s, Raise InteractionResponded)
    else emit (ResponseSendMessage content) s.

Definition set_files (fs : tree) : action unit :=
  fun s => (({| files := fs; assigned_files := assigned_files s.1 |}, s.2), Ok ()).

Definition set_table (t : table) : action unit :=
  fun s => (({| files := files s.1; assigned_files := t |}, s.2), Ok ()).

Definition try_except {A : Type} (body : action A) (handler : exn -> action A)
  : action A :=
  fun s =>
    match body s with
    | (s', Raise e) => handler e s'
    | r => r
    end.

(** [str(error)]: the message, without the errno and file name that an
    [OSError] puts around it and without the object that Pillow's message
    ends with. *)
Definition exn_str (e : exn) : string :=
  match e with
  | ValueError msg | RuntimeError msg => msg
  | ZeroDivisionError => "division by zero"
  | OverflowError => "integer division result too large for a float"
  | FileNotFoundError => "No such file or directory"
  | FileExistsError => "File exists"
  | NotADirectoryError => "Not a directory"
  | IsADirectoryError => "Is a directory"
  | UnidentifiedImageError => "cannot identify image file"
  | CouldntDecodeError => "Decoding failed. ffmpeg returned error code: 1"
  | AttributeError => "'NoneType' object has no attribute 'startswith'"
  | IndexError => "list index out of range"
  | Forbidden => "403 Forbidden (error code: 50007): Cannot send messages to this user"
  | HTTPException => "HTTPException"
  | InteractionResponded => "This interaction has already been responded to before"
  end.

(** [PurePath.parent]. *)
Definition parent (p : path) : path := removelast p.

(** [Path.mkdir(parents=True, exist_ok=True)]. *)
Definition mkdir_parents (d : path) : action unit :=
  fs ← read files;
  if is_file fs d then raise FileExistsError
  else if existsb (is_file fs) (parents d) then raise NotADirectoryError
  else set_files (foldr (fun q acc => <[q := Dir]> acc) fs (d :: parents d)).

(** Why nothing can be opened inside [d] when [d] is not a directory: the
    nearest entry that exists on the way to it is a regular file, or
    nothing is there. *)
Definition not_a_directory (fs : tree) (d : path) : exn :=
  match List.find (fun q => bool_decide (is_Some (fs !! q))) (d :: parents d) with
  | Some q => if is_file fs q then NotADirectoryError else FileNotFoundError
  | None => FileNotFoundError
  end.

(** Opening [p] for writing and writing [b]. *)
Definition write_file (p : path) (b : blob) : action unit :=
  fs ← read files;
  if is_dir fs p then raise IsADirectoryError
  else if negb (is_dir fs (parent p)) then raise (not_a_directory fs (parent p))
  else set_files (<[p := File b]> fs).

Definition unlink (p : path) : action unit :=
  fs ← read files; set_files (delete p fs).

Definition save_uploaded_file (uploaded_file : attachment)
    (original_path new_path : path) : action unit :=
  ct ← lift (match content_type uploaded_file with
             | Some ct => Ok ct
             | None => Raise AttributeError
             end);
  fs ← read files;
  processed ← lift (
    if String.prefix "image" ct
    then process_image fs (data uploaded_file) original_path
    else if String.prefix "audio" ct
    then process_sound (data uploaded_file)
    else Raise (ValueError "Invalid file type"));
  mkdir_parents (parent new_path);;
  write_file new_path processed;;
  fs ← read files;
  if is_file fs original_path then unlink original_path else mret ().

Definition dquote : string := String (ascii_of_nat 34) EmptyString.

(** [json.dumps] of the pack metadata. *)
Definition pack_mcmeta : string :=
  "{" +:+ dquote +:+ "pack" +:+ dquote +:+ ": {"
      +:+ dquote +:+ "pack_format" +:+ dquote +:+ ": 1, "
      +:+ dquote +:+ "description" +:+ dquote +:+ ": "
      +:+ dquote +:+ "Community pack" +:+ dquote +:+ "}}".

Fixpoint zip_entries (fs : tree) (root : path) (ps : list path)
  : result (list (path * blob)) :=
  match ps with
  | [] => Ok []
  | p :: ps' =>
      b ← open_path fs p;
      rel ← relative_to p root;
      rest ← zip_entries fs root ps';
      Ok ((rel, b) :: rest)
  end.

Definition create_final_zip (pack_root_path : path) : action (list (path * blob)) :=
  write_file (pack_root_path ++ ["pack.mcmeta"]) (OtherBytes pack_mcmeta);;
  fs ← read files;
  lift (zip_entries fs pack_root_path (get_resources fs pack_root_path)).

(** Line 273 of [submit_file]: [not tuple(get_resources(original_root))]. *)
Definition completion_check (fs : tree) (original_root : path) : bool :=
  match get_resources fs original_root with
  | [] => true
  | _ :: _ => false
  end.

(** Line 241: [not result or result[0] != user_message.author.id]. *)
Definition not_assigned_to (result : option Z) (author : Z) : bool :=
  match result with
  | None => true
  | Some user_id => negb (user_id =? author)
  end.

(** [author] is [user_message.author.id], [attachments] the attachments of
    the user's message, [serialized_path] the footer of the message replied
    to. *)
Definition submit_file (root : path) (author : Z) (attachments : list attachment)
    (serialized_path : path) : action unit :=
  let original_root := root ++ ["original_assets"] in
  let original_file_path := original_root ++ serialized_path in
  submitted ← try_except
    (result ← read (fun w => Sql.select_user_id (assigned_files w) serialized_path);
     if not_assigned_to result author then
       emit (Reply "This file is no longer assigned to you.");;
       mret false
     else
       failure ← try_except
         (let dest_path := root ++ ["new_assets"] ++ serialized_path in
          uploaded ← lift (match attachments with
                           | a :: _ => Ok a
                           | [] => Raise IndexError
                           end);
          save_uploaded_file uploaded original_file_path dest_path;;
          mret None)
         (fun error => mret (Some error));
       match failure with
       | Some error =>
           emit (Reply ("Failed to submit file: " +:+ exn_str error));;
           mret false
       | None =>
           t ← read assigned_files;
           set_table (Sql.delete_file_path serialized_path t);;
           mret true
       end)
    (fun error => emit (Reply "Failed to submit file.");; raise error);
  if submitted : bool then
    emit (Reply "File submitted.");;
    fs ← read files;
    if completion_check fs original_root then
      finished ← create_final_zip (root ++ ["new_assets"]);
      emit (ManagerEdit "Resource pack ready." finished)
    else mret ()
  else mret ().

(** [user] is [interaction.user.id]; [dm] is what the direct message of
    lines 338-342 comes back with. *)
Definition assign_file (root : path) (file_path : path) (user : Z)
    (dm : delivery) : action unit :=
  serialized_path ← lift (relative_to file_path (root ++ ["original_assets"]));
  result ← read (fun w => Sql.select_user_id (assigned_files w) serialized_path);
  match result with
  | Some user_id =>
      raise (RuntimeError ("File already assigned to " +:+ pretty user_id))
  | None => mret ()
  end;;
  t ← read assigned_files;
  set_table (Sql.insert_or_replace user serialized_path t);;
  fs ← read files;
  file_data ← lift (open_path fs file_path);
  match dm with
  | Delivered jump_url =>
      emit (UserSend user serialized_path (name file_path) file_data);;
      emit (FollowupSend ("File assigned. " +:+ jump_url));;
      emit AssignMsgEdit
  | Refused Forbidden =>
      response_send_message
        "Please allow direct messages to receive your assigned file."
  | Refused e => raise e
  end.

Definition not_taken (t : table) (resource_gen : list path) (root : path)
  : list path :=
  let taken_files := (fun p => root ++ p) <$> Sql.select_file_paths t in
  filter (fun p => p ∉ taken_files) resource_gen.

(** The two buttons; [pick] is what [random.choice] draws.  A button
    callback is handed an interaction of its own, and the defer of lines
    378 and 394 is the first use of its response: from there on the
    response is done. *)
Definition get_random (catalog : tree -> path -> list path) (none : string)
    (root : path) (user : Z) (pick : nat) (dm : delivery) : action unit :=
  let search_path := root ++ ["original_assets"] in
  emit ResponseDefer;;
  fs ← read files;
  t ← read assigned_files;
  let available := not_taken t (catalog fs search_path) search_path in
  match available with
  | [] => emit (FollowupSend none)
  | _ :: _ =>
      match available !! (pick `mod` List.length available)%nat with
      | Some file => assign_file root file user dm
      | None => raise IndexError
      end
  end.

Definition get_random_texture := get_random get_textures "No available textures.".
Definition get_random_sound := get_random get_sounds "No available sounds.".

(** The pack once the row of [file_path] is deleted. *)
Definition released (w : world) (file_path : path) : world :=
  {| files := files w;
     assigned_files := Sql.delete_file_path file_path (assigned_files w) |}.

(** A handler step that sends no message. *)
Definition silent {A : Type} (m : action A) : Prop :=
  forall w out, (m (w, out)).1.2 = out.

(** What [submit_file] does once the upload is saved and the row is gone. *)
Definition after_submitted (root : path) : action unit :=
  emit (Reply "File submitted.");;
  fs ← read files;
  if completion_check fs (root ++ ["original_assets"]) then
    finished ← create_final_zip (root ++ ["new_assets"]);
    emit (ManagerEdit "Resource pack ready." finished)
  else mret ().

(** ** Names for the steps of [save_uploaded_file] *)

(** The tree once [d] and all its ancestors are directories. *)
Definition with_dirs (fs : tree) (d : path) : tree :=
  foldr (fun q acc => <[q := Dir]> acc) fs (d :: parents d).

(** Lines 106-111: the transform picked by the declared content type. *)
Definition processed_upload (fs : tree) (ct : string) (uploaded_file : attachment)
    (original_path : path) : result blob :=
  if String.prefix "image" ct
  then process_image fs (data uploaded_file) original_path
  else if String.prefix "audio" ct
  then process_sound (data uploaded_file)
  else Raise (ValueError "Invalid file type").

(** Lines 113-119: the tree once [processed] is written to [new_path] and
    the original is unlinked. *)
Definition saved (fs : tree) (processed : blob) (original_path new_path : path)
  : tree :=
  let fs2 := <[new_path := File processed]> (with_dirs fs (parent new_path)) in
  if is_file fs2 original_path then delete original_path fs2 else fs2.

Definition with_files (w : world) (fs : tree) : world :=
  {| files := fs; assigned_files := assigned_files w |}.

(** The table as the schema keeps it: one row per user, in the order of
    [user_id], and, as the handlers keep it, one row per asset path. *)
Definition table_ok (t : table) : Prop :=
  StronglySorted Z.lt t.*1 /\ NoDup t.*2.

(** ** The link back to the pack: lines 203-211 of [on_message] *)

Module Link.

Definition find_str : string := "https://discord.com/channels/".

(** [s.rfind(sub)], scanning from index [i]: the highest index at which
    [sub] starts, if any. *)
Fixpoint rfind_from (sub s : string) (i : nat) (found : option nat) : option nat :=
  let found := if String.prefix sub s then Some i else found in
  match s with
  | EmptyString => found
  | String _ s' => rfind_from sub s' (S i) found
  end.

Definition rfind (sub s : string) : option nat := rfind_from sub s 0 None.

(** [s[n:]]. *)
Fixpoint drop_chars (n : nat) (s : string) : string :=
  match n, s with
  | O, _ => s
  | S n', String _ s' => drop_chars n' s'
  | S _, EmptyString => EmptyString
  end.

(** [s.partition(sep)] when [sep] occurs: what is before the first [sep]
    and what is after it. *)
Fixpoint cut (sep : ascii) (s : string) : option (string * string) :=
  match s with
  | EmptyString => None
  | String c s' =>
      if Ascii.eqb c sep then Some (EmptyString, s')
      else match cut sep s' with
           | Some (before, after) => Some (String c before, after)
           | None => None
           end
  end.

(** [s.split(sep, maxsplit)] for a separator of one character. *)
Fixpoint split (sep : ascii) (maxsplit : nat) (s : string) : list string :=
  match maxsplit with
  | O => [s]
  | S m =>
      match cut sep s with
      | None => [s]
      | Some (before, after) => before :: split sep m after
      end
  end.

(** Lines 203-211: the channel id and the message id, as the strings read
    off the last link of the description; [None] is the early [return]. *)
Definition jump_ids (description : string) : option (string * string) :=
  match rfind find_str description with
  | None => None
  | Some index =>
      match split "/" 2 (drop_chars (index + String.length find_str) description) with
      | [_; channel_id; message_id] =>
          match split " " 1 message_id with
          | first :: _ => Some (channel_id, first)
          | [] => None
          end
      | _ => None
      end
  end.

Fixpoint has_char (c : ascii) (s : string) : bool :=
  match s with
  | EmptyString => false
  | String c' s' => Ascii.eqb c' c || has_char c s'
  end.

(** [sub in s]. *)
Fixpoint occurs (sub s : string) : bool :=
  String.prefix sub s ||
  match s with
  | EmptyString => false
  | String _ s' => occurs sub s'
  end.

End Link.

(** ** Sample packs *)

Module Sample.

Definition pack : path := ["storage"; "1234"].

Definition original_assets : path := pack ++ ["original_assets"].

Definition texture (id : N) : blob :=
  ImageBytes {| img_size := (16, 16); img_pixels := Pixels id |}.

Definition upload (w h : Z) : attachment :=
  {| content_type := Some "image/png"%string;
     data := ImageBytes {| img_size := (w, h); img_pixels := Pixels 9 |} |}.

(** Two textures, nothing assigned. *)
Definition two_textures : world :=
  {| files := list_to_map
       [ (pack, Dir); (original_assets, Dir);
         (original_assets ++ ["a.png"], File (texture 1));
         (original_assets ++ ["b.png"], File (texture 2)) ];
     assigned_files := [] |}.

(** The same pack with [a.png] out with user 7. *)
Definition a_with_7 : world :=
  {| files := files two_textures; assigned_files := [(7, ["a.png"])] |}.

(** One texture, out with user 7. *)
Definition last_texture : world :=
  {| files := list_to_map
       [ (pack, Dir); (original_assets, Dir);
         (original_assets ++ ["a.png"], File (texture 1)) ];
     assigned_files := [(7, ["a.png"])] |}.

Definition stone : path := ["assets"; "minecraft"; "models"; "block"; "stone.json"].

Definition grass : path := ["assets"; "minecraft"; "textures"; "grass.png"].

(** One texture, out with user 7, and one model file. *)
Definition texture_and_model : world :=
  {| files := list_to_map
       [ (pack, Dir); (original_assets, Dir);
         (original_assets ++ ["assets"], Dir);
         (original_assets ++ ["assets"; "minecraft"], Dir);
         (original_assets ++ ["assets"; "minecraft"; "textures"], Dir);
         (original_assets ++ ["assets"; "minecraft"; "models"], Dir);
         (original_assets ++ ["assets"; "minecraft"; "models"; "block"], Dir);
         (original_assets ++ grass, File (texture 1));
         (original_assets ++ stone, File (OtherBytes "{}")) ];
     assigned_files := [(7, grass)] |}.

End Sample.

(** ** Facts about rounding *)

Section Rounding.

Local Open Scope Z_scope.

Lemma pow2_pos (k : Z) : 0 <= k -> 0 < 2 ^ k.
Proof. intros Hk. apply Z.pow_pos_nonneg; lia. Qed.

Lemma pow2_split (a b : Z) : 0 <= a -> 0 <= b -> 2 ^ (a + b) = 2 ^ a * 2 ^ b.
Proof. intros Ha Hb. apply Z.pow_add_r; assumption. Qed.

Lemma pow2_mono (a b : Z) : 0 <= a <= b -> 2 ^ a <= 2 ^ b.
Proof. intros H. apply Z.pow_le_mono_r; lia. Qed.

Lemma scaled_nonpos (n d e : Z) : e <= 0 -> scaled n d e = (n * 2 ^ (- e), d).
Proof.
  intros He. unfold scaled.
  rewrite (Z.max_r 0 (- e)) by lia. rewrite (Z.max_l 0 e) by lia.
  rewrite Z.pow_0_r, Z.mul_1_r. reflexivity.
Qed.

Lemma scaled_nonneg (n d e : Z) : 0 <= e -> scaled n d e = (n, d * 2 ^ e).
Proof.
  intros He. unfold scaled.
  rewrite (Z.max_l 0 (- e)) by lia. rewrite (Z.max_r 0 e) by lia.
  rewrite Z.pow_0_r, Z.mul_1_r. reflexivity.
Qed.

(** [2 ^ ilog2_frac n d <= n / d]. *)
Lemma ilog2_frac_lower (n d : Z) :
  0 < n -> 0 < d ->
  (scaled n d (ilog2_frac n d)).2 <= (scaled n d (ilog2_frac n d)).1.
Proof.
  intros Hn Hd. unfold ilog2_frac.
  pose proof (Z.log2_spec n Hn) as [Hn1 Hn2].
  pose proof (Z.log2_spec d Hd) as [Hd1 Hd2].
  pose proof (Z.log2_nonneg n) as Ha. pose proof (Z.log2_nonneg d) as Hb.
  set (a := Z.log2 n) in *. set (b := Z.log2 d) in *.
  destruct (scaled n d (a - b)) as [N D] eqn:HS.
  destruct (Z.leb_spec D N) as [Hle | Hlt].
  - rewrite HS. exact Hle.
  - destruct (Z_le_gt_dec 1 (a - b)) as [Hl | Hl].
    + rewrite scaled_nonneg by lia. simpl.
      replace (Z.succ b) with (b + 1) in Hd2 by lia.
      assert (Hs : 2 ^ a = 2 ^ (b + 1) * 2 ^ (a - b - 1)).
      { rewrite <- pow2_split by lia. f_equal. lia. }
      pose proof (pow2_pos (a - b - 1)). nia.
    + rewrite scaled_nonpos by lia. simpl.
      replace (Z.succ b) with (a + (- (a - b - 1))) in Hd2 by lia.
      rewrite pow2_split in Hd2 by lia.
      pose proof (pow2_pos (- (a - b - 1))). nia.
Qed.

(** [n / d < 2 ^ (ilog2_frac n d + 1)]. *)
Lemma ilog2_frac_upper (n d : Z) :
  0 < n -> 0 < d ->
  (scaled n d (ilog2_frac n d + 1)).1 < (scaled n d (ilog2_frac n d + 1)).2.
Proof.
  intros Hn Hd. unfold ilog2_frac.
  pose proof (Z.log2_spec n Hn) as [Hn1 Hn2].
  pose proof (Z.log2_spec d Hd) as [Hd1 Hd2].
  pose proof (Z.log2_nonneg n) as Ha. pose proof (Z.log2_nonneg d) as Hb.
  set (a := Z.log2 n) in *. set (b := Z.log2 d) in *.
  destruct (scaled n d (a - b)) as [N D] eqn:HS.
  destruct (Z.leb_spec D N) as [Hle | Hlt].
  - destruct (Z_le_gt_dec 0 (a - b + 1)) as [Hl | Hl].
    + rewrite scaled_nonneg by lia. simpl.
      replace (Z.succ a) with (b + (a - b + 1)) in Hn2 by lia.
      rewrite pow2_split in Hn2 by lia.
      pose proof (pow2_pos (a - b + 1)). nia.
    + rewrite scaled_nonpos by lia. simpl.
      assert (Hs : 2 ^ b = 2 ^ Z.succ a * 2 ^ (- (a - b + 1))).
      { rewrite <- pow2_split by lia. f_equal. lia. }
      pose proof (pow2_pos (- (a - b + 1))). nia.
  - replace (a - b - 1 + 1) with (a - b) by lia. rewrite HS. exact Hlt.
Qed.

Lemma ilog2_frac_le_52 (n d : Z) :
  0 < n -> 0 < d -> n < d * 2 ^ 53 -> ilog2_frac n d <= 52.
Proof.
  intros Hn Hd Hlt.
  destruct (Z_le_gt_dec (ilog2_frac n d) 52) as [H | H]; [exact H | exfalso].
  pose proof (ilog2_frac_lower n d Hn Hd) as Hlo.
  rewrite scaled_nonneg in Hlo by lia. simpl in Hlo.
  pose proof (pow2_mono 53 (ilog2_frac n d)). nia.
Qed.

Lemma ilog2_frac_normal (n d : Z) :
  0 < n -> 0 < d -> d <= n * 2 ^ 1022 -> - 1022 <= ilog2_frac n d.
Proof.
  intros Hn Hd Hle.
  destruct (Z_le_gt_dec (- 1022) (ilog2_frac n d)) as [H | H]; [exact H | exfalso].
  pose proof (ilog2_frac_upper n d Hn Hd) as Hup.
  rewrite scaled_nonpos in Hup by lia. simpl in Hup.
  pose proof (pow2_mono 1022 (- (ilog2_frac n d + 1))). nia.
Qed.

(** With the exponent of a normal number the scaled quotient has 53 bits. *)
Lemma scaled_mantissa_lower (n d : Z) :
  0 < n -> 0 < d -> ilog2_frac n d <= 52 ->
  d * 2 ^ 52 <= n * 2 ^ (52 - ilog2_frac n d).
Proof.
  intros Hn Hd H52.
  pose proof (ilog2_frac_lower n d Hn Hd) as Hlo.
  destruct (Z_le_gt_dec 0 (ilog2_frac n d)) as [H | H].
  - rewrite scaled_nonneg in Hlo by lia. simpl in Hlo.
    assert (Hs : 2 ^ 52 = 2 ^ ilog2_frac n d * 2 ^ (52 - ilog2_frac n d)).
    { rewrite <- pow2_split by lia. f_equal. lia. }
    rewrite Hs. pose proof (pow2_pos (52 - ilog2_frac n d)). nia.
  - rewrite scaled_nonpos in Hlo by lia. simpl in Hlo.
    replace (52 - ilog2_frac n d) with (52 + - ilog2_frac n d) by lia.
    rewrite pow2_split by lia.
    pose proof (pow2_pos (- ilog2_frac n d)). nia.
Qed.

Lemma round_half_even_lower (N D : Z) : N / D <= round_half_even N D.
Proof.
  unfold round_half_even.
  destruct (2 * (N mod D) ?= D); [destruct (Z.even (N / D)) | |]; lia.
Qed.

Lemma round_half_even_cases (N D : Z) :
  round_half_even N D = N / D \/
  (round_half_even N D = N / D + 1 /\ D <= 2 * (N mod D)).
Proof.
  unfold round_half_even.
  destruct (Z.compare_spec (2 * (N mod D)) D) as [H | H | H].
  - destruct (Z.even (N / D)); [left | right]; lia.
  - left; reflexivity.
  - right; lia.
Qed.

Lemma round_half_even_exact (z D : Z) : 0 < D -> round_half_even (z * D) D = z.
Proof.
  intros HD. unfold round_half_even.
  rewrite Z.div_mul by lia. rewrite Z.mod_mul by lia.
  destruct (Z.compare_spec (2 * 0) D); try lia.
Qed.

Lemma dyadic_ge_int (m e T : Z) :
  e <= 0 -> T * 2 ^ (- e) <= m -> (inject_Z T <= dyadic m e)%Q.
Proof.
  intros He H. unfold dyadic. pose proof (pow2_pos (- e)) as HP.
  destruct (Z.leb_spec 0 e) as [H0 | H0].
  - assert (e = 0) by lia; subst e. simpl in *. rewrite <- Zle_Qle. lia.
  - unfold Qle; simpl. rewrite Z2Pos.id by lia. lia.
Qed.

Lemma dyadic_lt_int (m e T : Z) :
  e <= 0 -> m < T * 2 ^ (- e) -> (dyadic m e < inject_Z T)%Q.
Proof.
  intros He H. unfold dyadic. pose proof (pow2_pos (- e)) as HP.
  destruct (Z.leb_spec 0 e) as [H0 | H0].
  - assert (e = 0) by lia; subst e. simpl in *. rewrite <- Zlt_Qlt. lia.
  - unfold Qlt; simpl. rewrite Z2Pos.id by lia. lia.
Qed.

Lemma dyadic_eq_int (z e : Z) :
  e <= 0 -> (dyadic (z * 2 ^ (- e)) e == inject_Z z)%Q.
Proof.
  intros He. unfold dyadic. pose proof (pow2_pos (- e)) as HP.
  destruct (Z.leb_spec 0 e) as [H0 | H0].
  - assert (e = 0) by lia; subst e. simpl. rewrite !Z.mul_1_r. reflexivity.
  - unfold Qeq; simpl. rewrite Z2Pos.id by lia. lia.
Qed.

(** The exponent [RN_pos] rounds at, for a quotient below [2^53]. *)
Lemma RN_pos_unfold (n d : Z) :
  0 < n -> 0 < d -> n < d * 2 ^ 53 ->
  let e := Z.max (ilog2_frac n d - (prec - 1)) emin in
  e <= 0 /\ RN_pos n d = dyadic (round_half_even (n * 2 ^ (- e)) d) e.
Proof.
  intros Hn Hd Hlt e.
  pose proof (ilog2_frac_le_52 n d Hn Hd Hlt) as H52.
  assert (He : e <= 0) by (unfold e, prec, emin; lia).
  split; [exact He |].
  unfold RN_pos. fold e. rewrite scaled_nonpos by exact He. reflexivity.
Qed.

Lemma RN_pos_ge_int (n d T : Z) :
  0 < n -> 0 < d -> n < d * 2 ^ 53 -> T * d <= n ->
  (inject_Z T <= RN_pos n d)%Q.
Proof.
  intros Hn Hd Hlt HT.
  destruct (RN_pos_unfold n d Hn Hd Hlt) as [He ->].
  set (e := Z.max (ilog2_frac n d - (prec - 1)) emin) in *.
  apply dyadic_ge_int; [exact He |].
  pose proof (pow2_pos (- e)) as HP.
  etransitivity; [| apply round_half_even_lower].
  apply Z.div_le_lower_bound; [lia | nia].
Qed.

Lemma RN_pos_lt_int (n d T : Z) :
  0 < n -> 0 < d -> n < d * 2 ^ 53 -> d <= n * 2 ^ 1022 ->
  n < T * d -> n < (T * d - n) * 2 ^ 53 ->
  (RN_pos n d < inject_Z T)%Q.
Proof.
  intros Hn Hd Hlt Hnorm HT Hgap.
  destruct (RN_pos_unfold n d Hn Hd Hlt) as [He ->].
  pose proof (ilog2_frac_le_52 n d Hn Hd Hlt) as H52.
  pose proof (ilog2_frac_normal n d Hn Hd Hnorm) as Hno.
  pose proof (scaled_mantissa_lower n d Hn Hd H52) as Hm.
  set (e := Z.max (ilog2_frac n d - (prec - 1)) emin) in *.
  assert (Ee : - e = 52 - ilog2_frac n d) by (unfold e, prec, emin; lia).
  apply dyadic_lt_int; [exact He |].
  rewrite Ee in *. clear Ee.
  pose proof (pow2_pos (52 - ilog2_frac n d)) as HP.
  set (P := 2 ^ (52 - ilog2_frac n d)) in *.
  pose proof (Z.div_mod (n * P) d ltac:(lia)) as Hdm.
  pose proof (Z.mod_pos_bound (n * P) d Hd) as Hr.
  set (q := n * P / d) in *. set (r := (n * P) mod d) in *.
  assert (Hq : q < T * P) by nia.
  destruct (round_half_even_cases (n * P) d) as [-> | [-> Hup]]; fold q.
  - exact Hq.
  - fold r in Hup.
    destruct (Z_lt_ge_dec (q + 1) (T * P)) as [Hs | Hs]; [exact Hs | exfalso].
    assert (Hq' : q = T * P - 1) by lia.
    assert (H1 : d * 2 ^ 52 < (T * d - n) * 2 ^ 53 * P) by nia.
    assert (H2 : 2 * (T * d - n) * P <= d) by nia.
    change (2 ^ 53) with (2 * 2 ^ 52) in H1. nia.
Qed.

Lemma RN_pos_exact_int (z d : Z) :
  0 < z < 2 ^ 53 -> 0 < d -> (RN_pos (z * d) d == inject_Z z)%Q.
Proof.
  intros Hz Hd.
  destruct (RN_pos_unfold (z * d) d) as [He ->]; [nia | lia | nia |].
  set (e := Z.max (ilog2_frac (z * d) d - (prec - 1)) emin) in *.
  pose proof (pow2_pos (- e)) as HP.
  replace (z * d * 2 ^ (- e)) with (z * 2 ^ (- e) * d) by ring.
  rewrite round_half_even_exact by lia.
  apply dyadic_eq_int; exact He.
Qed.

Lemma RN_div_pos (a b : Z) :
  0 < a -> 0 < b -> RN (inject_Z a / inject_Z b) = RN_pos a b.
Proof.
  intros Ha Hb. destruct a as [| pa | pa]; try lia. destruct b as [| pb | pb]; try lia.
  unfold RN, Qdiv, Qmult, Qinv; simpl. rewrite Pos.mul_1_r. reflexivity.
Qed.

Lemma RN_zero (x : Q) : (x == 0)%Q -> RN x = 0%Q.
Proof.
  destruct x as [n d]. unfold Qeq; simpl. intros H.
  assert (n = 0) by lia. subst n. reflexivity.
Qed.

(** Ints below [2^53] are floats: rounding leaves them alone. *)
Lemma RN_exact_int (x : Q) (z : Z) :
  0 <= z < 2 ^ 53 -> (x == inject_Z z)%Q -> (RN x == inject_Z z)%Q.
Proof.
  intros Hz Hx.
  destruct (Z.eq_dec z 0) as [-> | Hnz].
  - rewrite (RN_zero x Hx). reflexivity.
  - destruct x as [n d]. unfold Qeq in Hx; simpl in Hx.
    assert (Hn : n = z * Zpos d) by lia.
    destruct n as [| pn | pn]; try nia.
    unfold RN; simpl. rewrite Hn. apply RN_pos_exact_int; lia.
Qed.

Lemma RN_div_ge_int (a b T : Z) :
  0 < a -> 0 < b -> a < b * 2 ^ 53 -> T * b <= a ->
  (inject_Z T <= RN (inject_Z a / inject_Z b))%Q.
Proof.
  intros Ha Hb Hlt HT. rewrite RN_div_pos by assumption.
  apply RN_pos_ge_int; assumption.
Qed.

Lemma RN_div_lt_int (a b T : Z) :
  0 < a -> 0 < b < 2 ^ 53 -> a < b * 2 ^ 53 ->
  a < T * b -> a < (T * b - a) * 2 ^ 53 ->
  (RN (inject_Z a / inject_Z b) < inject_Z T)%Q.
Proof.
  intros Ha Hb Hlt HT Hgap. rewrite RN_div_pos by lia.
  apply RN_pos_lt_int; lia.
Qed.

Lemma Qfloor_unique (x : Q) (z : Z) :
  (inject_Z z <= x)%Q -> (x < inject_Z (z + 1))%Q -> Qfloor x = z.
Proof.
  intros H1 H2.
  pose proof (Qfloor_le x) as H3. pose proof (Qlt_floor x) as H4.
  assert (H5 : (inject_Z (Qfloor x) < inject_Z (z + 1))%Q)
    by (eapply Qle_lt_trans; eassumption).
  assert (H6 : (inject_Z z < inject_Z (Qfloor x + 1))%Q)
    by (eapply Qle_lt_trans; eassumption).
  rewrite <- Zlt_Qlt in H5, H6. lia.
Qed.

(** Rounding a quotient of ints below [2^53] never crosses an int. *)
Lemma RN_div_floor (a b : Z) :
  0 < a < 2 ^ 53 -> 0 < b < 2 ^ 53 ->
  Qfloor (RN (inject_Z a / inject_Z b)) = a / b.
Proof.
  intros Ha Hb.
  pose proof (Z.div_mod a b ltac:(lia)) as Hdm.
  pose proof (Z.mod_pos_bound a b ltac:(lia)) as Hr.
  apply Qfloor_unique.
  - apply RN_div_ge_int; nia.
  - apply RN_div_lt_int; nia.
Qed.

Lemma finite_bounded (x : Q) (T : Z) :
  (0 <= x)%Q -> (x < inject_Z T)%Q -> T <= 2 ^ 53 -> finite x = true.
Proof.
  intros H0 HT HB. unfold finite.
  rewrite Qabs_pos by exact H0.
  destruct (Qle_bool overflow_threshold x) eqn:E; [exfalso | reflexivity].
  apply Qle_bool_iff in E.
  assert (H : (inject_Z (2 ^ emax) < inject_Z T)%Q)
    by (eapply Qle_lt_trans; eassumption).
  rewrite <- Zlt_Qlt in H.
  pose proof (pow2_mono 53 emax ltac:(unfold emax; lia)). lia.
Qed.

Lemma py_round_int (x : Q) (z : Z) : (x == inject_Z z)%Q -> py_round x = z.
Proof.
  destruct x as [n d]. unfold Qeq; simpl. intros H.
  unfold py_round; simpl. replace n with (z * Zpos d) by lia.
  apply round_half_even_exact. lia.
Qed.

Lemma Qfloor_nonneg_quot (t : Q) :
  (0 <= t)%Q -> Z.quot (Qnum t) (Zpos (Qden t)) = Qfloor t.
Proof.
  destruct t as [n d]. unfold Qle; simpl. intros H.
  apply Z.quot_div_nonneg; lia.
Qed.

(** On a non-negative float and a positive int below [2^53], CPython's
    float floor division is the floor of the exact quotient, as long as
    that floor times the divisor is still a float. *)
Lemma float_floordiv_spec (vx wx : Q) (w : Z) :
  (0 <= vx)%Q -> 0 < w < 2 ^ 53 -> (wx == inject_Z w)%Q ->
  w * Qfloor (vx / inject_Z w) < 2 ^ 53 ->
  exists r, float_floordiv vx wx = Ok r /\
            (r == inject_Z (Qfloor (vx / inject_Z w)))%Q.
Proof.
  intros Hvx Hw Hwx Hk.
  set (k := Qfloor (vx / inject_Z w)) in *.
  assert (HwQ : (inject_Z 0 < inject_Z w)%Q) by (rewrite <- Zlt_Qlt; lia).
  change (inject_Z 0) with 0%Q in HwQ.
  assert (Hw0 : ~ (inject_Z w == 0)%Q) by (intros E; rewrite E in HwQ; discriminate).
  assert (Ht : (0 <= vx / inject_Z w)%Q).
  { apply Qle_shift_div_l; [exact HwQ |]. rewrite Qmult_0_l. exact Hvx. }
  assert (Hk0 : 0 <= k).
  { unfold k. change 0 with (Qfloor 0). apply Qfloor_resp_le. exact Ht. }
  assert (Hkle : (inject_Z w * inject_Z k <= vx)%Q).
  { pose proof (Qfloor_le (vx / inject_Z w)) as Hf. fold k in Hf.
    apply (Qmult_le_l _ _ (inject_Z w) HwQ) in Hf.
    rewrite Qmult_div_r in Hf by exact Hw0. exact Hf. }
  unfold float_floordiv.
  assert (E0 : Qeq_bool wx 0 = false).
  { destruct (Qeq_bool wx 0) eqn:E; [| reflexivity].
    apply Qeq_bool_iff in E. rewrite Hwx in E. contradiction. }
  rewrite E0.
  assert (Emd : (fmod vx wx == vx - inject_Z w * inject_Z k)%Q).
  { unfold fmod. rewrite Qfloor_nonneg_quot.
    - rewrite Hwx at 2. fold k. rewrite Hwx. reflexivity.
    - rewrite Hwx. exact Ht. }
  set (md := fmod vx wx) in *.
  assert (Emd0 : Qlt_bool md 0 = false).
  { unfold Qlt_bool. apply negb_false_iff, Qle_bool_iff.
    rewrite Emd. apply (Qplus_le_l _ _ (inject_Z w * inject_Z k)).
    ring_simplify. exact Hkle. }
  assert (Ewx0 : Qlt_bool wx 0 = false).
  { unfold Qlt_bool. apply negb_false_iff, Qle_bool_iff.
    rewrite Hwx. apply Qlt_le_weak, HwQ. }
  rewrite Emd0, Ewx0. simpl eqb. simpl negb at 2. rewrite andb_false_r.
  assert (Ediv : (RN (RN (vx - md) / wx) == inject_Z k)%Q).
  { apply RN_exact_int; [unfold k in *; nia |].
    assert (E1 : (RN (vx - md) == inject_Z (w * k))%Q).
    { apply RN_exact_int; [nia |]. rewrite Emd, inject_Z_mult. ring. }
    rewrite E1, Hwx, inject_Z_mult. field. exact Hw0. }
  set (div := RN (RN (vx - md) / wx)) in *.
  assert (Efl : Qfloor div = k) by (rewrite Ediv; apply Qfloor_Z).
  rewrite Efl.
  destruct (Qeq_bool div 0) eqn:Ez; simpl negb; cbv iota.
  - exists 0%Q. split; [reflexivity |].
    apply Qeq_bool_iff in Ez. rewrite <- Ediv, Ez. reflexivity.
  - rewrite (RN_zero (div - inject_Z k)) by (rewrite Ediv; ring).
    exists (inject_Z k). split; reflexivity.
Qed.


Lemma int_truediv_ok (a b : Z) :
  0 < a -> 0 < b < 2 ^ 53 -> a + 2 * b <= b * 2 ^ 53 ->
  int_truediv a b = Ok (RN (inject_Z a / inject_Z b)) /\
  (0 <= RN (inject_Z a / inject_Z b))%Q.
Proof.
  intros Ha Hb Hlt.
  assert (H0 : (0 <= RN (inject_Z a / inject_Z b))%Q).
  { apply (RN_div_ge_int a b 0); lia. }
  split; [| exact H0].
  unfold int_truediv. destruct (Z.eqb_spec b 0) as [-> | _]; [lia |].
  rewrite (finite_bounded _ (2 ^ 53)); [reflexivity | exact H0 | | lia].
  apply RN_div_lt_int; nia.
Qed.

Lemma float_of_int_ok (w : Z) :
  0 < w < 2 ^ 53 ->
  float_of_int w = Ok (RN (inject_Z w)) /\ (RN (inject_Z w) == inject_Z w)%Q.
Proof.
  intros Hw.
  assert (E : (RN (inject_Z w) == inject_Z w)%Q)
    by (apply RN_exact_int; [lia | reflexivity]).
  split; [| exact E].
  unfold float_of_int. rewrite (finite_bounded _ (2 ^ 53)); [reflexivity | | | lia].
  - rewrite E. change 0%Q with (inject_Z 0). rewrite <- Zle_Qle. lia.
  - rewrite E. rewrite <- Zlt_Qlt. lia.
Qed.

(** [round((a * c / b) // c)] is [a // b]: the float detour of lines 77-81
    loses nothing while the ints involved stay below [2^53]. *)
Lemma floordiv_of_rounded (a b c : Z) :
  0 < a < 2 ^ 53 -> 0 < b < 2 ^ 53 -> 0 < c < 2 ^ 53 ->
  a * c + 2 * b <= b * 2 ^ 53 ->
  exists fx qx,
    int_truediv (a * c) b = Ok fx /\
    float_floordiv_int fx c = Ok qx /\
    py_round qx = a / b.
Proof.
  intros Ha Hb Hc Hlt.
  pose proof (Z.div_mod a b ltac:(lia)) as Hdm.
  pose proof (Z.mod_pos_bound a b ltac:(lia)) as Hr.
  set (k := a / b) in *.
  destruct (int_truediv_ok (a * c) b) as [E1 H0]; [nia | lia | lia |].
  set (fx := RN (inject_Z (a * c) / inject_Z b)) in *.
  destruct (float_of_int_ok c Hc) as [E2 Ec].
  assert (HcQ : (0 < inject_Z c)%Q).
  { change 0%Q with (inject_Z 0). rewrite <- Zlt_Qlt. lia. }
  assert (Hfl : Qfloor (fx / inject_Z c) = k).
  { apply Qfloor_unique.
    - apply Qle_shift_div_l; [exact HcQ |]. rewrite <- inject_Z_mult.
      apply RN_div_ge_int; nia.
    - apply Qlt_shift_div_r; [exact HcQ |]. rewrite <- inject_Z_mult.
      apply RN_div_lt_int; nia. }
  destruct (float_floordiv_spec fx (RN (inject_Z c)) c H0 Hc Ec) as (r & E3 & Er).
  { rewrite Hfl. nia. }
  exists fx, r. split; [exact E1 |]. split.
  - unfold float_floordiv_int. rewrite E2. exact E3.
  - apply py_round_int. rewrite Er, Hfl. reflexivity.
Qed.

Lemma target_size_spec (ox oy w h : Z) :
  dim ox -> dim oy -> dim w -> dim h ->
  target_size ox oy w h =
    Ok (Z.min (w / ox) (h / oy) * ox, Z.min (w / ox) (h / oy) * oy).
Proof.
  unfold dim. intros Hox Hoy Hw Hh.
  pose proof (Z.div_mod w ox ltac:(lia)) as Hdx.
  pose proof (Z.mod_pos_bound w ox ltac:(lia)) as Hrx.
  pose proof (Z.div_mod h oy ltac:(lia)) as Hdy.
  pose proof (Z.mod_pos_bound h oy ltac:(lia)) as Hry.
  pose proof (RN_div_floor w ox ltac:(lia) ltac:(lia)) as Fx.
  pose proof (RN_div_floor h oy ltac:(lia) ltac:(lia)) as Fy.
  set (kx := w / ox) in *. set (ky := h / oy) in *.
  unfold target_size.
  destruct (int_truediv_ok w ox) as [-> _]; [lia | lia | nia |].
  destruct (int_truediv_ok h oy) as [-> _]; [lia | lia | nia |].
  cbn [mbind result_bind].
  set (rx := RN (inject_Z w / inject_Z ox)) in *.
  set (ry := RN (inject_Z h / inject_Z oy)) in *.
  unfold int_floordiv.
  destruct (Z.eqb_spec ox 0) as [-> | _]; [lia |].
  destruct (Z.eqb_spec oy 0) as [-> | _]; [lia |].
  destruct (Qlt_bool ry rx) eqn:Eb; unfold Qlt_bool in Eb.
  - assert (Hk : ky <= kx).
    { rewrite <- Fx, <- Fy. apply Qfloor_resp_le.
      apply negb_true_iff in Eb.
      destruct (Qlt_le_dec ry rx) as [Hlt | Hle]; [apply Qlt_le_weak, Hlt |].
      apply Qle_bool_iff in Hle. congruence. }
    assert (A1 : h < (kx + 1) * oy) by nia.
    assert (A2 : (kx + 1) * ox <= w + ox) by nia.
    assert (A3 : h * ox < (w + ox) * oy) by nia.
    destruct (floordiv_of_rounded h oy ox) as (fx & qx & E1 & E2 & E3);
      [lia | lia | lia | nia |].
    rewrite E1; cbn [mbind result_bind]. rewrite E2; cbn [mbind result_bind].
    rewrite E3. fold ky. rewrite Z.min_r by exact Hk. reflexivity.
  - assert (Hk : kx <= ky).
    { rewrite <- Fx, <- Fy. apply Qfloor_resp_le.
      apply negb_false_iff, Qle_bool_iff in Eb. exact Eb. }
    assert (A1 : w < (ky + 1) * ox) by nia.
    assert (A2 : (ky + 1) * oy <= h + oy) by nia.
    assert (A3 : w * oy < (h + oy) * ox) by nia.
    destruct (floordiv_of_rounded w ox oy) as (fy & qy & E1 & E2 & E3);
      [lia | lia | lia | nia |].
    rewrite E1; cbn [mbind result_bind]. rewrite E2; cbn [mbind result_bind].
    rewrite E3. fold kx. rewrite Z.min_l by exact Hk. reflexivity.
Qed.

End Rounding.


(** ** The image transform *)

Section ImageTransform.

Lemma Qfloor_min_div (w ox h oy : Z) :
  Qfloor (Qmin (inject_Z w / inject_Z ox) (inject_Z h / inject_Z oy)) =
  Z.min (w / ox) (h / oy).
Proof.
  rewrite (Zdiv_Qdiv w ox), (Zdiv_Qdiv h oy).
  destruct (Qlt_le_dec (inject_Z h / inject_Z oy) (inject_Z w / inject_Z ox))
    as [Hlt | Hle].
  - apply Qlt_le_weak in Hlt. rewrite (Q.min_r _ _ Hlt).
    rewrite Z.min_r; [reflexivity | apply Qfloor_resp_le, Hlt].
  - rewrite (Q.min_l _ _ Hle).
    rewrite Z.min_l; [reflexivity | apply Qfloor_resp_le, Hle].
Qed.

Lemma shared_multiple_nonneg (w ox h oy : Z) :
  dim ox -> dim oy -> dim w -> dim h -> 0 <= Z.min (w / ox) (h / oy).
Proof.
  unfold dim. intros Hox Hoy Hw Hh.
  pose proof (Z.div_pos w ox ltac:(lia) ltac:(lia)).
  pose proof (Z.div_pos h oy ltac:(lia) ltac:(lia)). lia.
Qed.

(** [process_image] on two decodable images: everything up to [resize]. *)
Lemma process_image_unfold (fs : tree) (original_path : path)
    (ox oy w h : Z) (opx px : pixels) :
  dim ox -> dim oy -> dim w -> dim h ->
  fs !! original_path =
    Some (File (ImageBytes {| img_size := (ox, oy); img_pixels := opx |})) ->
  process_image fs (ImageBytes {| img_size := (w, h); img_pixels := px |})
                original_path =
  img ← PIL.resize (Z.min (w / ox) (h / oy) * ox, Z.min (w / ox) (h / oy) * oy)
        {| img_size := (w, h); img_pixels := Converted "RGBA" px |};
  Ok (PIL.save img).
Proof.
  intros Hox Hoy Hw Hh Hfs.
  unfold process_image, open_path. rewrite Hfs. cbn.
  rewrite (target_size_spec ox oy w h Hox Hoy Hw Hh). reflexivity.
Qed.

Lemma resize_zero (img : image) (ox oy : Z) :
  0 < (img_size img).1 ->
  PIL.resize (0 * ox, 0 * oy) img =
    Raise (ValueError "height and width must be > 0").
Proof.
  intros Hpos. unfold PIL.resize.
  change (0 * ox) with 0. change (0 * oy) with 0.
  destruct (decide (img_size img = (0, 0))) as [E | _]; [| reflexivity].
  rewrite E in Hpos. cbn in Hpos. lia.
Qed.

Lemma resize_size (img img' : image) (size : Z * Z) :
  PIL.resize size img = Ok img' -> img_size img' = size.
Proof.
  unfold PIL.resize. destruct (decide (img_size img = size)) as [E | _].
  - intros [= <-]. exact E.
  - destruct ((size.1 <? 1) || (size.2 <? 1)); [discriminate |].
    intros [= <-]. reflexivity.
Qed.

Lemma resize_positive (img : image) (size : Z * Z) :
  1 <= size.1 -> 1 <= size.2 ->
  exists img', PIL.resize size img = Ok img' /\ img_size img' = size.
Proof.
  intros H1 H2. unfold PIL.resize.
  destruct (decide (img_size img = size)) as [E | _]; [eauto |].
  destruct (Z.ltb_spec size.1 1); [lia |].
  destruct (Z.ltb_spec size.2 1); [lia |]. cbn. eauto.
Qed.

(** C10: for a decodable submission of size (w, h) and an original of size
    (ox, oy), the size handed to [resize] is (k*ox, k*oy) for the one
    non-negative integer k = floor(min(w/ox, h/oy)); the image produced,
    when k is at least 1, has exactly that size, and for k = 0 [resize]
    raises.  Both axes always get the same multiple. *)
Theorem process_image_shared_multiple (fs : tree) (original_path : path)
    (ox oy w h : Z) (opx px : pixels) :
  dim ox -> dim oy -> dim w -> dim h ->
  fs !! original_path =
    Some (File (ImageBytes {| img_size := (ox, oy); img_pixels := opx |})) ->
  let k := Qfloor (Qmin (inject_Z w / inject_Z ox) (inject_Z h / inject_Z oy)) in
  let submitted := ImageBytes {| img_size := (w, h); img_pixels := px |} in
  0 <= k /\
  target_size ox oy w h = Ok (k * ox, k * oy) /\
  (1 <= k -> exists px',
     process_image fs submitted original_path =
       Ok (ImageBytes {| img_size := (k * ox, k * oy); img_pixels := px' |})) /\
  (k = 0 ->
     process_image fs submitted original_path =
       Raise (ValueError "height and width must be > 0")).
Proof.
  intros Hox Hoy Hw Hh Hfs k submitted. unfold k, submitted.
  rewrite Qfloor_min_div.
  pose proof (shared_multiple_nonneg w ox h oy Hox Hoy Hw Hh) as Hk.
  rewrite (process_image_unfold fs original_path ox oy w h opx px) by assumption.
  set (m := Z.min (w / ox) (h / oy)) in *.
  repeat split.
  - exact Hk.
  - apply target_size_spec; assumption.
  - intros H1. unfold dim in *.
    destruct (resize_positive
                {| img_size := (w, h); img_pixels := Converted "RGBA" px |}
                (m * ox, m * oy)) as ([sz px'] & -> & Hsz); cbn; try nia.
    cbn in Hsz. subst sz. exists px'. reflexivity.
  - intros ->. rewrite resize_zero; [reflexivity |]. unfold dim in *. cbn. lia.
Qed.

Lemma process_image_shared_multiple_witness :
  let fs : tree :=
    {[ ["original_assets"; "a.png"] :=
         File (ImageBytes {| img_size := (16, 32); img_pixels := Pixels 1 |}) ]} in
  (dim 16 /\ dim 32 /\ dim 100 /\ dim 70) /\
  target_size 16 32 100 70 = Ok (2 * 16, 2 * 32) /\
  exists px',
    process_image fs (ImageBytes {| img_size := (100, 70); img_pixels := Pixels 2 |})
                  ["original_assets"; "a.png"] =
      Ok (ImageBytes {| img_size := (2 * 16, 2 * 32); img_pixels := px' |}).
Proof.
  intros fs.
  assert (D : dim 16 /\ dim 32 /\ dim 100 /\ dim 70) by (unfold dim; lia).
  split; [exact D |].
  destruct D as (D1 & D2 & D3 & D4).
  destruct (process_image_shared_multiple fs ["original_assets"; "a.png"]
              16 32 100 70 (Pixels 1) (Pixels 2) D1 D2 D3 D4 eq_refl)
    as (_ & Ht & Hp & _).
  split; [exact Ht | apply Hp; vm_compute; discriminate].
Defined.

(** C9: an image submission that is the original asset itself, same pixels
    and same size (ox, oy), comes out of the image transform with size
    (ox, oy): the multiple chosen is 1. *)
Theorem process_image_round_trip (fs : tree) (original_path : path) (img : image) :
  dim (img_size img).1 -> dim (img_size img).2 ->
  fs !! original_path = Some (File (ImageBytes img)) ->
  target_size (img_size img).1 (img_size img).2 (img_size img).1 (img_size img).2 =
    Ok (1 * (img_size img).1, 1 * (img_size img).2) /\
  exists px',
    process_image fs (ImageBytes img) original_path =
      Ok (ImageBytes {| img_size := img_size img; img_pixels := px' |}).
Proof.
  destruct img as [[ox oy] opx]. cbn [img_size fst snd]. intros Hox Hoy Hfs.
  assert (E : Z.min (ox / ox) (oy / oy) = 1).
  { unfold dim in *. rewrite !Z.div_same by lia. reflexivity. }
  split.
  - rewrite target_size_spec by assumption. rewrite E. reflexivity.
  - rewrite (process_image_unfold fs original_path ox oy ox oy opx opx)
      by assumption.
    rewrite E, !Z.mul_1_l. unfold PIL.resize. cbn [img_size].
    rewrite decide_True by reflexivity. cbn. eauto.
Qed.

Lemma process_image_round_trip_witness :
  let img := {| img_size := (16, 16); img_pixels := Pixels 1 |} in
  let fs : tree := {[ ["original_assets"; "a.png"] := File (ImageBytes img) ]} in
  (dim 16 /\ fs !! ["original_assets"; "a.png"] = Some (File (ImageBytes img))) /\
  target_size 16 16 16 16 = Ok (1 * 16, 1 * 16) /\
  exists px',
    process_image fs (ImageBytes img) ["original_assets"; "a.png"] =
      Ok (ImageBytes {| img_size := (16, 16); img_pixels := px' |}).
Proof.
  intros img fs.
  assert (D : dim 16) by (unfold dim; lia).
  split; [split; [exact D | reflexivity] |].
  exact (process_image_round_trip fs ["original_assets"; "a.png"] img D D eq_refl).
Defined.

(** C1, as the code has it: for an original of 16x16 and a submission of
    48x32 the image transform produces 32x32.  The axis with the smaller
    scale-up ratio (y, ratio 2) gives the multiple and both axes get it. *)
Theorem process_image_16x16_48x32 (fs : tree) (original_path : path)
    (opx px : pixels) :
  48 / 16 = 3 /\ 32 / 16 = 2 /\
  target_size 16 16 48 32 = Ok (2 * 16, 2 * 16) /\
  process_image
    (<[original_path :=
         File (ImageBytes {| img_size := (16, 16); img_pixels := opx |})]> fs)
    (ImageBytes {| img_size := (48, 32); img_pixels := px |}) original_path =
  Ok (ImageBytes {| img_size := (32, 32);
                    img_pixels := Resized 32 32 (Converted "RGBA" px) |}).
Proof.
  assert (D : dim 16 /\ dim 48 /\ dim 32) by (unfold dim; lia).
  destruct D as (D16 & D48 & D32).
  split; [reflexivity |]. split; [reflexivity |]. split.
  - rewrite target_size_spec by assumption. reflexivity.
  - rewrite (process_image_unfold _ original_path 16 16 48 32 opx px);
      [reflexivity | assumption .. | apply lookup_insert_eq].
Qed.

(** C1 as stated fails: the output for 16x16 and 48x32 is not 48x32. *)
Lemma output_for_48x32_is_not_48x32 :
  let fs : tree :=
    {[ ["original_assets"; "a.png"] :=
         File (ImageBytes {| img_size := (16, 16); img_pixels := Pixels 1 |}) ]} in
  ~ exists px',
      process_image fs
        (ImageBytes {| img_size := (48, 32); img_pixels := Pixels 2 |})
        ["original_assets"; "a.png"] =
      Ok (ImageBytes {| img_size := (48, 32); img_pixels := px' |}).
Proof.
  intros fs [px' H]. vm_compute in H. discriminate H.
Qed.

End ImageTransform.

(** ** The catalog *)

Section Catalog.

Lemma elem_of_rglob (fs : tree) (root p : path) :
  p ∈ rglob fs root <-> is_Some (fs !! p) /\ root `prefix_of` p /\ p <> root.
Proof.
  unfold rglob. rewrite list_elem_of_filter, list_elem_of_fmap. split.
  - intros [HP ([q x] & -> & Hin)]. apply elem_of_map_to_list in Hin.
    split; [eexists; exact Hin | exact HP].
  - intros [[x Hx] HP]. split; [exact HP |].
    exists (p, x). split; [reflexivity | apply elem_of_map_to_list, Hx].
Qed.

Lemma elem_of_get_resources (fs : tree) (root p : path) :
  p ∈ get_resources fs root <->
  is_file fs p = true /\ root `prefix_of` p /\ p <> root.
Proof.
  unfold get_resources. rewrite list_elem_of_filter, elem_of_rglob. split.
  - intros [Hf [_ HP]]. split; assumption.
  - intros [Hf HP]. split; [exact Hf | split; [| exact HP]].
    unfold is_file in Hf. destruct (fs !! p); [eauto | discriminate].
Qed.

(** The check of line 273 holds exactly when no file of any kind is left
    below the root. *)
Lemma completion_check_spec (fs : tree) (root : path) :
  completion_check fs root = true <->
  forall p, root `prefix_of` p -> p <> root -> is_file fs p = false.
Proof.
  unfold completion_check. split.
  - destruct (get_resources fs root) as [| q l] eqn:E; [| discriminate].
    intros _ p H1 H2. destruct (is_file fs p) eqn:Ef; [exfalso | reflexivity].
    assert (Hin : p ∈ get_resources fs root)
      by (apply elem_of_get_resources; auto).
    rewrite E in Hin. apply elem_of_nil in Hin. exact Hin.
  - intros H. destruct (get_resources fs root) as [| q l] eqn:E; [reflexivity |].
    assert (Hin : q ∈ get_resources fs root) by (rewrite E; apply elem_of_cons; auto).
    apply elem_of_get_resources in Hin as (Hf & H1 & H2).
    rewrite (H q H1 H2) in Hf. discriminate.
Qed.

Lemma py_in_str_paths (s : string) (ps : list path) :
  py_in (PyStr s) (PyPath <$> ps) = false.
Proof. induction ps as [| p ps IH]; [reflexivity | exact IH]. Qed.

Lemma filter_none {A : Type} (P : A -> Prop) `{forall x, Decision (P x)}
    (l : list A) :
  (forall x, x ∈ l -> ~ P x) -> filter P l = [].
Proof.
  intros HP. induction l as [| x l IH]; [reflexivity |].
  rewrite filter_cons_False by (apply HP, elem_of_cons; auto).
  apply IH. intros y Hy. apply HP, elem_of_cons. auto.
Qed.

(** A [str] is never found among the [Path]s of [path.parents], so the
    filter of [get_models] lets nothing through. *)
Lemma get_models_nil (fs : tree) (root : path) : get_models fs root = [].
Proof.
  unfold get_models. apply filter_none. intros p _ [_ H].
  rewrite py_in_str_paths in H. discriminate.
Qed.

(** C8 fails on the code: a tree with a [.json] file under a [models]
    segment, for which [get_models] yields nothing. *)
Theorem get_models_misses_model_file :
  let stone := Sample.original_assets ++ Sample.stone in
  let fs : tree := {[ stone := File (OtherBytes "{}") ]} in
  stone ∈ get_resources fs Sample.original_assets /\
  suffix stone = ".json" /\
  "models" ∈ stone /\
  get_models fs Sample.original_assets = [].
Proof.
  intros stone fs. split; [| split; [| split]].
  - vm_compute. apply elem_of_cons. left. reflexivity.
  - reflexivity.
  - vm_compute. do 5 (apply elem_of_cons; right).
    apply elem_of_cons. left. reflexivity.
  - apply get_models_nil.
Qed.

End Catalog.

(** ** The assignment table *)

Section Table.

Lemma select_user_id_Some (t : table) (p : path) (u : Z) :
  Sql.select_user_id t p = Some u -> (u, p) ∈ t.
Proof.
  unfold Sql.select_user_id. intros H.
  destruct (filter (fun r => r.2 = p) t) as [| [u' p'] l] eqn:E; [discriminate |].
  cbn in H. injection H as ->.
  assert (Hin : (u, p') ∈ filter (fun r : Z * path => r.2 = p) t)
    by (rewrite E; apply elem_of_cons; auto).
  apply list_elem_of_filter in Hin as [Hp Hin]. cbn in Hp. subst p'. exact Hin.
Qed.

Lemma select_user_id_None (t : table) (p : path) :
  Sql.select_user_id t p = None <-> forall u, (u, p) ∉ t.
Proof.
  unfold Sql.select_user_id. split.
  - intros H u Hin.
    assert (Hf : (u, p) ∈ filter (fun r : Z * path => r.2 = p) t)
      by (apply list_elem_of_filter; auto).
    destruct (filter (fun r => r.2 = p) t); [| discriminate].
    apply elem_of_nil in Hf. exact Hf.
  - intros H.
    destruct (filter (fun r => r.2 = p) t) as [| [u' p'] l] eqn:E; [reflexivity |].
    assert (Hin : (u', p') ∈ filter (fun r : Z * path => r.2 = p) t)
      by (rewrite E; apply elem_of_cons; auto).
    apply list_elem_of_filter in Hin as [Hp Hin]. cbn in Hp. subst p'.
    destruct (H u' Hin).
Qed.

Lemma select_user_id_is_Some (t : table) (p : path) (u : Z) :
  (u, p) ∈ t -> exists u', Sql.select_user_id t p = Some u'.
Proof.
  intros Hin. destruct (Sql.select_user_id t p) as [u' |] eqn:E; [eauto |].
  rewrite select_user_id_None in E. destruct (E u Hin).
Qed.

Lemma elem_of_insert_row (r r' : Z * path) (t : table) :
  r' ∈ Sql.insert_row r t <-> r' = r \/ r' ∈ t.
Proof.
  induction t as [| x t IH]; cbn.
  - rewrite list_elem_of_singleton, elem_of_nil. tauto.
  - destruct (r.1 <? x.1).
    + rewrite elem_of_cons. tauto.
    + rewrite !elem_of_cons, IH. tauto.
Qed.

Lemma elem_of_insert_or_replace (u : Z) (p : path) (t : table) (r : Z * path) :
  r ∈ Sql.insert_or_replace u p t <-> r = (u, p) \/ (r.1 <> u /\ r ∈ t).
Proof.
  unfold Sql.insert_or_replace.
  rewrite elem_of_insert_row, list_elem_of_filter. tauto.
Qed.

Lemma filter_insert_row (P : Z * path -> Prop) `{forall x, Decision (P x)}
    (r : Z * path) (t : table) :
  P r -> (forall x, x ∈ t -> ~ P x) -> filter P (Sql.insert_row r t) = [r].
Proof.
  intros Hr Ht. induction t as [| x t IH]; cbn [Sql.insert_row].
  - rewrite filter_cons_True by exact Hr. reflexivity.
  - assert (Hx : ~ P x) by (apply Ht, elem_of_cons; auto).
    assert (Ht' : forall y, y ∈ t -> ~ P y)
      by (intros y Hy; apply Ht, elem_of_cons; auto).
    destruct (r.1 <? x.1).
    + rewrite filter_cons_True by exact Hr. rewrite filter_cons_False by exact Hx.
      rewrite (filter_none P t Ht'). reflexivity.
    + rewrite filter_cons_False by exact Hx. apply IH, Ht'.
Qed.

(** After the upsert the user has one row, the new one. *)
Lemma rows_of_user_after_insert_or_replace (u : Z) (p : path) (t : table) :
  filter (fun r => r.1 = u) (Sql.insert_or_replace u p t) = [(u, p)].
Proof.
  unfold Sql.insert_or_replace. apply filter_insert_row; [reflexivity |].
  intros x Hx. apply list_elem_of_filter in Hx as [Hne _]. exact Hne.
Qed.

Lemma select_user_id_after_insert (u : Z) (p : path) (t : table) :
  Sql.select_user_id t p = None ->
  Sql.select_user_id (Sql.insert_or_replace u p t) p = Some u.
Proof.
  intros Hnone. rewrite select_user_id_None in Hnone.
  unfold Sql.select_user_id, Sql.insert_or_replace.
  rewrite (filter_insert_row (fun r => r.2 = p)); [reflexivity .. |].
  intros x Hx Hp. apply list_elem_of_filter in Hx as [_ Hx].
  destruct x as [u' p']. cbn in Hp. subst p'. exact (Hnone u' Hx).
Qed.

Lemma insert_row_Permutation (r : Z * path) (t : table) :
  Sql.insert_row r t ≡ₚ r :: t.
Proof.
  induction t as [| x t IH]; cbn [Sql.insert_row]; [reflexivity |].
  destruct (r.1 <? x.1); [reflexivity |].
  rewrite IH. apply Permutation_swap.
Qed.

(** The schema invariant of the design, one row per asset path, survives a
    claim of a path that has no row and every release. *)
Lemma paths_unique_insert_or_replace (u : Z) (p : path) (t : table) :
  Sql.select_user_id t p = None -> NoDup t.*2 ->
  NoDup (Sql.insert_or_replace u p t).*2.
Proof.
  intros Hnone Hnd. rewrite select_user_id_None in Hnone.
  unfold Sql.insert_or_replace. rewrite insert_row_Permutation.
  cbn. apply NoDup_cons. split.
  - intros Hin. apply list_elem_of_fmap in Hin as ([u' p'] & Hp & Hin).
    cbn in Hp. subst p'. apply list_elem_of_filter in Hin as [_ Hin].
    exact (Hnone u' Hin).
  - apply (sublist_NoDup _ (t.*2)); [exact Hnd |].
    apply fmap_sublist, sublist_filter.
Qed.

Lemma paths_unique_delete (p : path) (t : table) :
  NoDup t.*2 -> NoDup (Sql.delete_file_path p t).*2.
Proof.
  intros Hnd. apply (sublist_NoDup _ (t.*2)); [exact Hnd |].
  apply fmap_sublist, sublist_filter.
Qed.

(** With one row per path, a path has at most one claimant. *)
Lemma paths_unique_claimant (t : table) (p : path) (u1 u2 : Z) :
  NoDup t.*2 -> (u1, p) ∈ t -> (u2, p) ∈ t -> u1 = u2.
Proof.
  induction t as [| [u q] t IH]; cbn; intros Hnd H1 H2.
  - apply elem_of_nil in H1. destruct H1.
  - apply NoDup_cons in Hnd as [Hq Hnd].
    apply elem_of_cons in H1 as [E1 | H1];
      apply elem_of_cons in H2 as [E2 | H2].
    + congruence.
    + destruct Hq. apply list_elem_of_fmap. exists (u2, p).
      split; [cbn; congruence | exact H2].
    + destruct Hq. apply list_elem_of_fmap. exists (u1, p).
      split; [cbn; congruence | exact H1].
    + exact (IH Hnd H1 H2).
Qed.

(** What [relative_to] returns is the rest of the path after the root. *)
Lemma relative_to_Ok (p root rel : path) :
  relative_to p root = Ok rel -> p = root ++ rel.
Proof.
  revert p. induction root as [| r root IH]; intros p; cbn.
  - intros [= ->]. reflexivity.
  - destruct p as [| x p]; [discriminate |].
    destruct (decide (r = x)) as [-> | _]; [| discriminate].
    intros H. rewrite (IH p H). reflexivity.
Qed.

(** A claimed path is kept out of the candidate set. *)
Lemma not_taken_excludes (t : table) (gen : list path) (root rel : path) (u : Z) :
  (u, rel) ∈ t -> root ++ rel ∉ not_taken t gen root.
Proof.
  intros Hin Hnt. unfold not_taken in Hnt.
  apply list_elem_of_filter in Hnt as [Hno _]. apply Hno.
  apply list_elem_of_fmap. exists rel. split; [reflexivity |].
  unfold Sql.select_file_paths. apply list_elem_of_fmap. exists (u, rel). auto.
Qed.

(** An unclaimed path of the catalog is in the candidate set. *)
Lemma not_taken_includes (t : table) (gen : list path) (root rel : path) :
  (forall u, (u, rel) ∉ t) -> root ++ rel ∈ gen ->
  root ++ rel ∈ not_taken t gen root.
Proof.
  intros Hno Hgen. unfold not_taken. apply list_elem_of_filter.
  split; [| exact Hgen].
  intros Hin. apply list_elem_of_fmap in Hin as (rel' & E & Hin).
  apply app_inv_head in E. subst rel'.
  unfold Sql.select_file_paths in Hin.
  apply list_elem_of_fmap in Hin as ([u q] & E & Hin). cbn in E. subst q.
  exact (Hno u Hin).
Qed.

End Table.

(** ** Running the handlers *)

Section Handlers.

Ltac run_step :=
  unfold mbind, action_bind, mret, action_ret, raise, lift, read, emit,
    set_files, set_table, try_except; cbn; cbv beta iota delta [fst snd].

Lemma not_assigned_to_true (result : option Z) (author : Z) :
  not_assigned_to result author = true <-> result <> Some author.
Proof.
  unfold not_assigned_to. destruct result as [u |]; [| split; [discriminate | reflexivity]].
  rewrite negb_true_iff, Z.eqb_neq. split; [congruence |].
  intros H E. apply H. f_equal. exact E.
Qed.

Lemma submit_file_rejects_unassigned (root : path) (author : Z)
    (attachments : list attachment) (serialized_path : path)
    (w : world) (out : list event) :
  Sql.select_user_id (assigned_files w) serialized_path <> Some author ->
  submit_file root author attachments serialized_path (w, out) =
    ((w, out ++ [Reply "This file is no longer assigned to you."]), Ok ()).
Proof.
  intros H. apply not_assigned_to_true in H.
  unfold submit_file, try_except, read, emit, mbind, action_bind, mret, action_ret.
  cbn. rewrite H. reflexivity.
Qed.

Lemma silent_bind {A B : Type} (m : action A) (k : A -> action B) :
  silent m -> (forall a, silent (k a)) -> silent (m ≫= k).
Proof.
  intros Hm Hk w out. unfold mbind, action_bind.
  specialize (Hm w out). destruct (m (w, out)) as [[w' out'] [a | e]]; cbn in *.
  - subst out'. apply Hk.
  - exact Hm.
Qed.

Lemma silent_ret {A : Type} (a : A) : silent (mret a).
Proof. intros w out. reflexivity. Qed.

Lemma silent_raise {A : Type} (e : exn) : silent (@raise A e).
Proof. intros w out. reflexivity. Qed.

Lemma silent_lift {A : Type} (r : result A) : silent (lift r).
Proof. intros w out. reflexivity. Qed.

Lemma silent_read {A : Type} (f : world -> A) : silent (read f).
Proof. intros w out. reflexivity. Qed.

Lemma silent_set_files (fs : tree) : silent (set_files fs).
Proof. intros w out. reflexivity. Qed.

Lemma silent_set_table (t : table) : silent (set_table t).
Proof. intros w out. reflexivity. Qed.

Lemma silent_mkdir_parents (d : path) : silent (mkdir_parents d).
Proof.
  unfold mkdir_parents. apply silent_bind; [apply silent_read |]. intros fs.
  destruct (is_file fs d); [apply silent_raise |].
  destruct (existsb (is_file fs) (parents d));
    [apply silent_raise | apply silent_set_files].
Qed.

Lemma silent_write_file (p : path) (b : blob) : silent (write_file p b).
Proof.
  unfold write_file. apply silent_bind; [apply silent_read |]. intros fs.
  destruct (is_dir fs p); [apply silent_raise |].
  destruct (negb (is_dir fs (parent p)));
    [apply silent_raise | apply silent_set_files].
Qed.

Lemma silent_unlink (p : path) : silent (unlink p).
Proof.
  unfold unlink. apply silent_bind; [apply silent_read |]. intros fs.
  apply silent_set_files.
Qed.

Lemma silent_save_uploaded_file (a : attachment) (o d : path) :
  silent (save_uploaded_file a o d).
Proof.
  unfold save_uploaded_file.
  apply silent_bind; [apply silent_lift |]. intros ct.
  apply silent_bind; [apply silent_read |]. intros fs.
  apply silent_bind; [apply silent_lift |]. intros processed.
  apply silent_bind; [apply silent_mkdir_parents |]. intros _.
  apply silent_bind; [apply silent_write_file |]. intros _.
  apply silent_bind; [apply silent_read |]. intros fs'.
  destruct (is_file fs' o); [apply silent_unlink | apply silent_ret].
Qed.

(** [submit_file] either turns the upload down with one reply, or saves it,
    deletes the row and goes on to the completion check. *)
Lemma submit_file_cases (root : path) (author : Z) (attachments : list attachment)
    (serialized_path : path) (w : world) (out : list event) :
  (exists msg w1,
     msg <> "File submitted."%string /\
     submit_file root author attachments serialized_path (w, out) =
       ((w1, out ++ [Reply msg]), Ok ())) \/
  (exists w1,
     Sql.select_user_id (assigned_files w) serialized_path = Some author /\
     submit_file root author attachments serialized_path (w, out) =
       after_submitted root (w1, out)).
Proof.
  destruct (not_assigned_to (Sql.select_user_id (assigned_files w) serialized_path)
              author) eqn:Ena.
  - left. exists "This file is no longer assigned to you."%string, w.
    split; [discriminate |].
    apply submit_file_rejects_unassigned, not_assigned_to_true, Ena.
  - assert (Hsel : Sql.select_user_id (assigned_files w) serialized_path = Some author).
    { destruct (Sql.select_user_id (assigned_files w) serialized_path) as [u |] eqn:E;
        [| discriminate]. cbn in Ena. apply negb_false_iff, Z.eqb_eq in Ena.
      congruence. }
    unfold submit_file. run_step. rewrite Ena.
    destruct attachments as [| a rest]; cbn.
    + left. eexists _, w. split; [| reflexivity]. discriminate.
    + pose proof (silent_save_uploaded_file a
                    ((root ++ ["original_assets"]) ++ serialized_path)
                    (root ++ "new_assets" :: serialized_path) w out) as Hs.
      destruct (save_uploaded_file a _ _ (w, out)) as [[w1 out1] [[] | e]];
        cbn in Hs; subst out1; cbn.
      * right. exists (released w1 serialized_path). split; [exact Hsel |].
        reflexivity.
      * left. eexists _, w1. split; [| reflexivity]. cbn. discriminate.
Qed.


Lemma after_submitted_incomplete (root : path) (w : world) (out : list event) :
  completion_check (files w) (root ++ ["original_assets"]) = false ->
  after_submitted root (w, out) = ((w, out ++ [Reply "File submitted."]), Ok ()).
Proof.
  intros Hc. unfold after_submitted. run_step. rewrite Hc. reflexivity.
Qed.

Lemma after_submitted_complete (root : path) (w : world) (out : list event) :
  completion_check (files w) (root ++ ["original_assets"]) = true ->
  (exists s e, after_submitted root (w, out) = (s, Raise e)) \/
  (exists zip,
     after_submitted root (w, out) =
       (({| files := <[(root ++ ["new_assets"]) ++ ["pack.mcmeta"] :=
                        File (OtherBytes pack_mcmeta)]> (files w);
            assigned_files := assigned_files w |},
         out ++ [Reply "File submitted."] ++ [ManagerEdit "Resource pack ready." zip]),
        Ok ())).
Proof.
  intros Hc. unfold after_submitted, create_final_zip, write_file. run_step.
  rewrite Hc.
  destruct (is_dir (files w) ((root ++ ["new_assets"]) ++ ["pack.mcmeta"]));
    [left; eauto |].
  destruct (negb (is_dir (files w) (parent ((root ++ ["new_assets"]) ++ ["pack.mcmeta"]))));
    [left; eauto |]. cbn.
  destruct (zip_entries _ _ _) as [zip | e]; [| left; eauto].
  right. exists zip. rewrite <- (app_assoc out). reflexivity.
Qed.

Lemma new_assets_not_under_original (root rest : path) :
  ~ (root ++ ["original_assets"]) `prefix_of` ((root ++ ["new_assets"]) ++ rest).
Proof.
  rewrite <- app_assoc. intros H. apply prefix_app_inv in H.
  apply prefix_cons_inv_1 in H. discriminate H.
Qed.

(** C2, as the code has it: after every accepted submission the completion
    check runs, and it holds, so that the archive goes out, exactly when no
    file of any kind is left below [original_assets]; model files and other
    kinds that are never handed out count as well. *)
Theorem completion_after_accepted_submission (root : path) (author : Z)
    (attachments : list attachment) (serialized_path : path)
    (w w' : world) (out : list event) :
  submit_file root author attachments serialized_path (w, []) = ((w', out), Ok ()) ->
  Reply "File submitted." ∈ out ->
  ((exists zip, ManagerEdit "Resource pack ready." zip ∈ out) <->
   (forall p, (root ++ ["original_assets"]) `prefix_of` p ->
              p <> root ++ ["original_assets"] -> is_file (files w') p = false)).
Proof.
  intros Hrun Hacc.
  destruct (submit_file_cases root author attachments serialized_path w [])
    as [(msg & w1 & Hmsg & E) | (w1 & _ & E)]; rewrite E in Hrun; clear E.
  - injection Hrun as <- <-. cbn in Hacc.
    apply list_elem_of_singleton in Hacc. congruence.
  - destruct (completion_check (files w1) (root ++ ["original_assets"])) eqn:Hc.
    + destruct (after_submitted_complete root w1 [] Hc)
        as [(s & e & E) | (zip & E)]; rewrite E in Hrun; [discriminate |].
      injection Hrun as <- <-. split.
      * intros _ p H1 H2. cbn [files]. unfold is_file.
        rewrite lookup_insert_ne.
        -- rewrite completion_check_spec in Hc. apply (Hc p H1 H2).
        -- intros <-. exact (new_assets_not_under_original root _ H1).
      * intros _. exists zip. cbn.
        apply elem_of_cons. right. apply elem_of_cons. left. reflexivity.
    + rewrite (after_submitted_incomplete root w1 [] Hc) in Hrun.
      injection Hrun as <- <-. split.
      * intros [zip Hin]. cbn in Hin. apply list_elem_of_singleton in Hin.
        discriminate Hin.
      * intros H. apply completion_check_spec in H. congruence.
Qed.

Lemma assign_file_conflict (root file_path : path) (user : Z) (dm : delivery)
    (w : world) (out : list event) (p : path) (u : Z) :
  relative_to file_path (root ++ ["original_assets"]) = Ok p ->
  Sql.select_user_id (assigned_files w) p = Some u ->
  assign_file root file_path user dm (w, out) =
    ((w, out), Raise (RuntimeError ("File already assigned to " +:+ pretty u))).
Proof.
  intros Hrel Hsel. unfold assign_file. rewrite Hrel. run_step.
  rewrite Hsel. reflexivity.
Qed.

(** Once the upsert is committed nothing later in [assign_file] touches the
    table or the files. *)
Lemma assign_file_claimed (root file_path : path) (user : Z) (dm : delivery)
    (w : world) (out : list event) (p : path) :
  relative_to file_path (root ++ ["original_assets"]) = Ok p ->
  Sql.select_user_id (assigned_files w) p = None ->
  exists out' r,
    assign_file root file_path user dm (w, out) =
      (({| files := files w;
           assigned_files := Sql.insert_or_replace user p (assigned_files w) |},
        out'), r).
Proof.
  intros Hrel Hsel. unfold assign_file. rewrite Hrel. run_step.
  rewrite Hsel. cbn. unfold open_path.
  destruct (files w !! file_path) as [[b |] |]; cbn; eauto.
  destruct dm as [url | []]; cbn; eauto.
  unfold response_send_message, emit. cbv beta iota delta [fst snd].
  destruct (is_done out); eauto.
Qed.

Lemma assign_file_forbidden (root file_path : path) (user : Z)
    (w : world) (out : list event) (p : path) (b : blob) :
  relative_to file_path (root ++ ["original_assets"]) = Ok p ->
  Sql.select_user_id (assigned_files w) p = None ->
  files w !! file_path = Some (File b) ->
  assign_file root file_path user (Refused Forbidden) (w, out) =
    let w1 := {| files := files w;
                 assigned_files := Sql.insert_or_replace user p (assigned_files w) |} in
    if is_done out then ((w1, out), Raise InteractionResponded)
    else ((w1, out ++ [ResponseSendMessage
                         "Please allow direct messages to receive your assigned file."]),
          Ok ()).
Proof.
  intros Hrel Hsel Hfile. unfold assign_file. rewrite Hrel. run_step.
  rewrite Hsel. cbn. unfold open_path. rewrite Hfile. cbn.
  unfold response_send_message, emit. reflexivity.
Qed.

Lemma save_uploaded_file_image_raises (a : attachment) (ct : string)
    (o d : path) (w : world) (out : list event) (e : exn) :
  content_type a = Some ct -> String.prefix "image" ct = true ->
  process_image (files w) (data a) o = Raise e ->
  save_uploaded_file a o d (w, out) = ((w, out), Raise e).
Proof.
  intros Hct Himg Hp. unfold save_uploaded_file. rewrite Hct. run_step.
  rewrite Himg, Hp. reflexivity.
Qed.

Lemma submit_file_save_raises (root : path) (author : Z) (a : attachment)
    (rest : list attachment) (serialized_path : path)
    (w : world) (out : list event) (e : exn) :
  Sql.select_user_id (assigned_files w) serialized_path = Some author ->
  save_uploaded_file a ((root ++ ["original_assets"]) ++ serialized_path)
    (root ++ ["new_assets"] ++ serialized_path) (w, out) = ((w, out), Raise e) ->
  submit_file root author (a :: rest) serialized_path (w, out) =
    ((w, out ++ [Reply ("Failed to submit file: " +:+ exn_str e)]), Ok ()).
Proof.
  intros Hsel Hsave. unfold submit_file. run_step. rewrite Hsel. cbn.
  rewrite Z.eqb_refl. cbn. cbn in Hsave. rewrite Hsave. reflexivity.
Qed.

(** C2 as stated fails: user 7 hands in the last texture of a pack that also
    holds a model file.  The submission is accepted and no file of a kind
    that is handed out is left, yet the completion check does not hold and
    no archive goes out. *)
Lemma completion_waits_for_model_files :
  let r := submit_file Sample.pack 7 [Sample.upload 16 16] Sample.grass
             (Sample.texture_and_model, []) in
  r.2 = Ok () /\
  r.1.2 = [Reply "File submitted."] /\
  distributable (files r.1.1) Sample.original_assets = [] /\
  completion_check (files r.1.1) Sample.original_assets = false.
Proof. vm_compute. repeat split. Qed.

Lemma completion_after_accepted_submission_witness :
  let r := submit_file Sample.pack 7 [Sample.upload 16 16] ["a.png"]
             (Sample.last_texture, []) in
  (r = ((r.1.1, r.1.2), Ok ()) /\ Reply "File submitted." ∈ r.1.2) /\
  ((exists zip, ManagerEdit "Resource pack ready." zip ∈ r.1.2) <->
   (forall p, Sample.original_assets `prefix_of` p ->
              p <> Sample.original_assets -> is_file (files r.1.1) p = false)).
Proof.
  intros r.
  assert (E : r = ((r.1.1, r.1.2), Ok ())) by (vm_compute; reflexivity).
  assert (Hin : Reply "File submitted." ∈ r.1.2)
    by (vm_compute; apply elem_of_cons; left; reflexivity).
  split; [split; assumption |].
  exact (completion_after_accepted_submission Sample.pack 7
           [Sample.upload 16 16] ["a.png"] Sample.last_texture r.1.1 r.1.2 E Hin).
Defined.

(** C6: a submission for an asset path that has no claimant, or whose
    claimant is another user, is answered with the no-longer-assigned
    message, and the pack, that is the files below [original_assets] and
    [new_assets] and the assignment table, is left as it was. *)
Theorem submission_without_claim_rejected (root : path) (author : Z)
    (attachments : list attachment) (serialized_path : path)
    (w : world) (out : list event) :
  Sql.select_user_id (assigned_files w) serialized_path = None \/
  (exists u, Sql.select_user_id (assigned_files w) serialized_path = Some u /\
             u <> author) ->
  submit_file root author attachments serialized_path (w, out) =
    ((w, out ++ [Reply "This file is no longer assigned to you."]), Ok ()).
Proof.
  intros H. apply submit_file_rejects_unassigned.
  destruct H as [-> | (u & -> & Hne)]; congruence.
Qed.

Lemma submission_without_claim_rejected_witness :
  (exists u, Sql.select_user_id (assigned_files Sample.a_with_7) ["a.png"] = Some u /\
             u <> 8) /\
  submit_file Sample.pack 8 [Sample.upload 16 16] ["a.png"] (Sample.a_with_7, []) =
    ((Sample.a_with_7, [Reply "This file is no longer assigned to you."]), Ok ()).
Proof.
  assert (H : exists u, Sql.select_user_id (assigned_files Sample.a_with_7) ["a.png"]
                        = Some u /\ u <> 8)
    by (exists 7; split; [reflexivity | lia]).
  split; [exact H |].
  exact (submission_without_claim_rejected Sample.pack 8 [Sample.upload 16 16]
           ["a.png"] Sample.a_with_7 [] (or_intror H)).
Defined.

(** C7: an image submission that is smaller than the original along an
    axis makes the computed multiple zero; [resize] then raises, the
    handler answers with a failure message and returns, and the pack is
    left as it was: nothing written below [new_assets], the original file
    kept, the row of the claim kept. *)
Theorem zero_multiple_submission_rejected (root : path) (author : Z)
    (ct : string) (rest : list attachment) (serialized_path : path)
    (w : world) (out : list event) (ox oy sw sh : Z) (opx spx : pixels) :
  Sql.select_user_id (assigned_files w) serialized_path = Some author ->
  files w !! ((root ++ ["original_assets"]) ++ serialized_path) =
    Some (File (ImageBytes {| img_size := (ox, oy); img_pixels := opx |})) ->
  String.prefix "image" ct = true ->
  dim ox -> dim oy -> dim sw -> dim sh ->
  sw < ox \/ sh < oy ->
  target_size ox oy sw sh = Ok (0 * ox, 0 * oy) /\
  submit_file root author
    ({| content_type := Some ct;
        data := ImageBytes {| img_size := (sw, sh); img_pixels := spx |} |} :: rest)
    serialized_path (w, out) =
  ((w, out ++ [Reply "Failed to submit file: height and width must be > 0"]), Ok ()).
Proof.
  intros Hsel Hfile Hct Hox Hoy Hsw Hsh Hsmall.
  assert (Hk : Z.min (sw / ox) (sh / oy) = 0).
  { unfold dim in *.
    pose proof (Z.div_pos sw ox ltac:(lia) ltac:(lia)) as Hx.
    pose proof (Z.div_pos sh oy ltac:(lia) ltac:(lia)) as Hy.
    destruct Hsmall as [H | H].
    - rewrite (Z.div_small sw ox) by lia. lia.
    - rewrite (Z.div_small sh oy) by lia. lia. }
  split.
  - rewrite target_size_spec by assumption. rewrite Hk. reflexivity.
  - apply (submit_file_save_raises root author _ rest serialized_path w out
             (ValueError "height and width must be > 0") Hsel).
    apply (save_uploaded_file_image_raises _ ct); [reflexivity | exact Hct |].
    cbn [data].
    rewrite (process_image_unfold (files w) _ ox oy sw sh opx spx) by assumption.
    rewrite Hk, resize_zero; [reflexivity |]. unfold dim in Hsw. cbn. lia.
Qed.

Lemma zero_multiple_submission_rejected_witness :
  (Sql.select_user_id (assigned_files Sample.a_with_7) ["a.png"] = Some 7 /\
   dim 16 /\ dim 8 /\ dim 40 /\ (8 < 16 \/ 40 < 16)) /\
  target_size 16 16 8 40 = Ok (0 * 16, 0 * 16) /\
  submit_file Sample.pack 7 [Sample.upload 8 40] ["a.png"] (Sample.a_with_7, []) =
  ((Sample.a_with_7,
    [Reply "Failed to submit file: height and width must be > 0"]), Ok ()).
Proof.
  assert (D : dim 16 /\ dim 8 /\ dim 40) by (unfold dim; lia).
  destruct D as (D16 & D8 & D40).
  assert (S : 8 < 16 \/ 40 < 16) by (left; lia).
  split; [repeat split; assumption |].
  exact (zero_multiple_submission_rejected Sample.pack 7 "image/png" []
           ["a.png"] Sample.a_with_7 [] 16 16 8 40 (Pixels 1) (Pixels 9)
           eq_refl eq_refl eq_refl D16 D16 D8 D40 S).
Defined.

(** One row per asset path is an invariant of [assign_file]. *)
Lemma assign_file_keeps_paths_unique (root file_path : path) (user : Z)
    (dm : delivery) (w : world) (out : list event) :
  NoDup (assigned_files w).*2 ->
  NoDup (assigned_files (assign_file root file_path user dm (w, out)).1.1).*2.
Proof.
  intros Hnd.
  destruct (relative_to file_path (root ++ ["original_assets"])) as [p | e] eqn:Hrel.
  - destruct (Sql.select_user_id (assigned_files w) p) as [u |] eqn:Hsel.
    + rewrite (assign_file_conflict root file_path user dm w out p u Hrel Hsel).
      exact Hnd.
    + destruct (assign_file_claimed root file_path user dm w out p Hrel Hsel)
        as (out' & r & ->).
      apply paths_unique_insert_or_replace; assumption.
  - unfold assign_file. rewrite Hrel. exact Hnd.
Qed.

(** C4: a claim request on an asset path that already has a row raises
    with the user id of an existing claimant in the message and leaves the
    pack as it was; the table changes only if no row referenced that path. *)
Theorem claim_of_claimed_path_reports_claimant (root file_path : path)
    (user : Z) (dm : delivery) (w : world) (out : list event) (p : path) :
  relative_to file_path (root ++ ["original_assets"]) = Ok p ->
  let r := assign_file root file_path user dm (w, out) in
  (forall u, (u, p) ∈ assigned_files w ->
     exists u', (u', p) ∈ assigned_files w /\
       r = ((w, out),
            Raise (RuntimeError ("File already assigned to " +:+ pretty u')))) /\
  (assigned_files r.1.1 <> assigned_files w ->
     forall u, (u, p) ∉ assigned_files w).
Proof.
  intros Hrel r.
  assert (H1 : forall u, (u, p) ∈ assigned_files w ->
     exists u', (u', p) ∈ assigned_files w /\
       r = ((w, out),
            Raise (RuntimeError ("File already assigned to " +:+ pretty u')))).
  { intros u Hin. destruct (select_user_id_is_Some _ _ _ Hin) as [u' Hsel].
    exists u'. split; [exact (select_user_id_Some _ _ _ Hsel) |].
    exact (assign_file_conflict root file_path user dm w out p u' Hrel Hsel). }
  split; [exact H1 |].
  intros Hchg u Hin. destruct (H1 u Hin) as (u' & _ & E).
  rewrite E in Hchg. apply Hchg. reflexivity.
Qed.

Lemma claim_of_claimed_path_reports_claimant_witness :
  let file := Sample.original_assets ++ ["a.png"] in
  relative_to file (Sample.pack ++ ["original_assets"]) = Ok ["a.png"] /\
  (7, ["a.png"]) ∈ assigned_files Sample.a_with_7 /\
  exists u', (u', ["a.png"]) ∈ assigned_files Sample.a_with_7 /\
    assign_file Sample.pack file 8 (Delivered "url") (Sample.a_with_7, []) =
      ((Sample.a_with_7, []),
       Raise (RuntimeError ("File already assigned to " +:+ pretty u'))).
Proof.
  intros file.
  assert (Hrel : relative_to file (Sample.pack ++ ["original_assets"]) = Ok ["a.png"])
    by reflexivity.
  assert (Hin : (7, ["a.png"]) ∈ assigned_files Sample.a_with_7)
    by (apply elem_of_cons; left; reflexivity).
  split; [exact Hrel |]. split; [exact Hin |].
  exact (proj1 (claim_of_claimed_path_reports_claimant Sample.pack file 8
                  (Delivered "url") Sample.a_with_7 [] ["a.png"] Hrel) 7 Hin).
Defined.

(** C5: when a user who holds a claim on asset A claims another asset B that
    has no row, the upsert keyed by user replaces A's row: afterwards the
    user has exactly one row, for B, and A has no row at all, so that A is
    back in the candidate set while still out with the user. *)
Theorem second_claim_overwrites_first (root file_path : path) (user : Z)
    (dm : delivery) (w : world) (out : list event) (a b : path) :
  NoDup (assigned_files w).*2 ->
  (user, a) ∈ assigned_files w ->
  relative_to file_path (root ++ ["original_assets"]) = Ok b ->
  Sql.select_user_id (assigned_files w) b = None ->
  let t' := assigned_files (assign_file root file_path user dm (w, out)).1.1 in
  a <> b /\
  filter (fun r => r.1 = user) t' = [(user, b)] /\
  (forall u, (u, a) ∉ t') /\
  Sql.select_user_id t' a = None /\
  (forall gen, (root ++ ["original_assets"]) ++ a ∈ gen ->
     (root ++ ["original_assets"]) ++ a ∈
       not_taken t' gen (root ++ ["original_assets"])).
Proof.
  intros Hnd Ha Hrel Hsel t'.
  destruct (assign_file_claimed root file_path user dm w out b Hrel Hsel)
    as (out' & r & E).
  unfold t'. rewrite E. cbn [fst assigned_files]. clear t' E.
  assert (Hab : a <> b).
  { intros ->. rewrite select_user_id_None in Hsel. exact (Hsel user Ha). }
  assert (Hno : forall u, (u, a) ∉ Sql.insert_or_replace user b (assigned_files w)).
  { intros u Hin. apply elem_of_insert_or_replace in Hin as [E | [Hne Hin]].
    - congruence.
    - cbn in Hne. apply Hne. exact (paths_unique_claimant _ a u user Hnd Hin Ha). }
  split; [exact Hab |].
  split; [apply rows_of_user_after_insert_or_replace |].
  split; [exact Hno |].
  split; [apply select_user_id_None, Hno |].
  intros gen Hgen. apply not_taken_includes; assumption.
Qed.

Lemma second_claim_overwrites_first_witness :
  let file := Sample.original_assets ++ ["b.png"] in
  let t' := assigned_files
              (assign_file Sample.pack file 7 (Delivered "url")
                 (Sample.a_with_7, [])).1.1 in
  (NoDup (assigned_files Sample.a_with_7).*2 /\
   (7, ["a.png"]) ∈ assigned_files Sample.a_with_7) /\
  filter (fun r => r.1 = 7) t' = [(7, ["b.png"])] /\
  Sql.select_user_id t' ["a.png"] = None.
Proof.
  intros file t'.
  assert (Hnd : NoDup (assigned_files Sample.a_with_7).*2).
  { cbn. apply NoDup_cons. split; [apply not_elem_of_nil | apply NoDup_nil_2]. }
  assert (Hin : (7, ["a.png"]) ∈ assigned_files Sample.a_with_7)
    by (apply elem_of_cons; left; reflexivity).
  split; [split; assumption |].
  destruct (second_claim_overwrites_first Sample.pack file 7 (Delivered "url")
              Sample.a_with_7 [] ["a.png"] ["b.png"] Hnd Hin eq_refl eq_refl)
    as (_ & H1 & _ & H2 & _).
  split; assumption.
Defined.

(** C3, as the code has it: when the direct message fails, for whatever
    reason, the row just written stays.  The asset has the requesting user
    as its claimant and is absent from the next candidate set. *)
Theorem failed_delivery_keeps_claim (root file_path : path) (user : Z) (e : exn)
    (w : world) (out : list event) (p : path) (b : blob) :
  relative_to file_path (root ++ ["original_assets"]) = Ok p ->
  Sql.select_user_id (assigned_files w) p = None ->
  files w !! file_path = Some (File b) ->
  let r := assign_file root file_path user (Refused e) (w, out) in
  let t' := assigned_files r.1.1 in
  t' = Sql.insert_or_replace user p (assigned_files w) /\
  files r.1.1 = files w /\
  Sql.select_user_id t' p = Some user /\
  (forall gen, file_path ∉ not_taken t' gen (root ++ ["original_assets"])).
Proof.
  intros Hrel Hsel Hfile r t'.
  destruct (assign_file_claimed root file_path user (Refused e) w out p Hrel Hsel)
    as (out' & res & E).
  assert (Et : t' = Sql.insert_or_replace user p (assigned_files w))
    by (unfold t', r; rewrite E; reflexivity).
  assert (Hclaim : Sql.select_user_id t' p = Some user)
    by (rewrite Et; apply select_user_id_after_insert, Hsel).
  split; [exact Et |].
  split; [unfold r; rewrite E; reflexivity |].
  split; [exact Hclaim |].
  intros gen. rewrite (relative_to_Ok _ _ _ Hrel).
  exact (not_taken_excludes t' gen _ p user (select_user_id_Some _ _ _ Hclaim)).
Qed.

Lemma failed_delivery_keeps_claim_witness :
  let file := Sample.original_assets ++ ["a.png"] in
  let r := assign_file Sample.pack file 7 (Refused Forbidden)
             (Sample.two_textures, [ResponseDefer]) in
  Sql.select_user_id (assigned_files Sample.two_textures) ["a.png"] = None /\
  Sql.select_user_id (assigned_files r.1.1) ["a.png"] = Some 7 /\
  (forall gen, file ∉ not_taken (assigned_files r.1.1) gen Sample.original_assets).
Proof.
  intros file r.
  split; [reflexivity |].
  destruct (failed_delivery_keeps_claim Sample.pack file 7 Forbidden
              Sample.two_textures [ResponseDefer] ["a.png"] (Sample.texture 1)
              eq_refl eq_refl eq_refl)
    as (_ & _ & H1 & H2).
  split; [exact H1 | exact H2].
Defined.

(** C3 as stated fails: user 7 asks for a texture on the deferred
    interaction of a button, the direct message is refused, and afterwards
    [a.png] still has user 7 as its claimant; the next candidate set holds
    [b.png] only. *)
Lemma failed_delivery_is_not_rolled_back :
  let file := Sample.original_assets ++ ["a.png"] in
  let r := assign_file Sample.pack file 7 (Refused Forbidden)
             (Sample.two_textures, [ResponseDefer]) in
  Sql.select_user_id (assigned_files r.1.1) ["a.png"] = Some 7 /\
  not_taken (assigned_files r.1.1)
    (get_textures (files r.1.1) Sample.original_assets) Sample.original_assets
  = [Sample.original_assets ++ ["b.png"]].
Proof. vm_compute. split; reflexivity. Qed.

End Handlers.

(** ** More on the catalog *)

Section CatalogFacts.

(** [get_resources] yields exactly the files strictly below the root, each
    of them once; a directory is never yielded. *)
Theorem get_resources_files_once (fs : tree) (root : path) :
  NoDup (get_resources fs root) /\
  forall p, p ∈ get_resources fs root <->
            (exists b, fs !! p = Some (File b)) /\ root `prefix_of` p /\ p <> root.
Proof.
  split.
  - unfold get_resources, rglob. do 2 apply NoDup_filter.
    apply NoDup_fst_map_to_list.
  - intros p. rewrite elem_of_get_resources. unfold is_file.
    destruct (fs !! p) as [[b |] |]; split.
    + intros [_ H]. split; [eauto | exact H].
    + intros [_ H]. split; [reflexivity | exact H].
    + intros [H _]. discriminate H.
    + intros [[b H] _]. discriminate H.
    + intros [H _]. discriminate H.
    + intros [[b H] _]. discriminate H.
Qed.

Lemma prefix_proper_app (root extra p : path) :
  (root ++ extra) `prefix_of` p -> extra <> [] -> root `prefix_of` p /\ p <> root.
Proof.
  intros [k ->] Hne. split.
  - rewrite <- app_assoc. apply prefix_app_r. reflexivity.
  - intros E. rewrite <- app_assoc in E.
    rewrite <- (app_nil_r root) in E at 2. apply app_inv_head in E.
    destruct extra; [congruence | discriminate E].
Qed.

(** When [assets/minecraft] is a directory of the tree, [get_textures]
    yields exactly the [.png] files below it: a texture anywhere else, such
    as under [assets/realms], is never handed out. *)
Theorem get_textures_only_below_minecraft (fs : tree) (root : path) :
  is_dir fs (root ++ ["assets"; "minecraft"]) = true ->
  forall p,
    p ∈ get_textures fs root <->
    is_file fs p = true /\ suffix p = ".png" /\
    (root ++ ["assets"; "minecraft"]) `prefix_of` p.
Proof.
  intros Hdir p. unfold get_textures. rewrite Hdir.
  rewrite list_elem_of_filter, elem_of_get_resources. split.
  - intros (Hs & Hf & Hp & _). auto.
  - intros (Hf & Hs & Hp). repeat split; try assumption.
    intros ->. unfold is_dir in Hdir. unfold is_file in Hf.
    destruct (fs !! (root ++ ["assets"; "minecraft"])) as [[b |] |]; discriminate.
Qed.

Lemma get_textures_only_below_minecraft_witness :
  let o := Sample.original_assets in
  let fs : tree :=
    <[o ++ ["assets"; "realms"; "logo.png"] := File (Sample.texture 3)]>
      (files Sample.texture_and_model) in
  is_dir fs (o ++ ["assets"; "minecraft"]) = true /\
  (o ++ Sample.grass ∈ get_textures fs o) /\
  (o ++ ["assets"; "realms"; "logo.png"] ∉ get_textures fs o).
Proof.
  intros o fs.
  assert (Hdir : is_dir fs (o ++ ["assets"; "minecraft"]) = true) by reflexivity.
  pose proof (get_textures_only_below_minecraft fs o Hdir) as H.
  split; [exact Hdir |]. split.
  - apply H. repeat split; try reflexivity.
    exists ["textures"; "grass.png"]. reflexivity.
  - intros Hin. apply H in Hin as (_ & _ & [k Hk]). discriminate Hk.
Defined.

(** Without an [assets/minecraft] directory every [.png] file below the
    root is a texture. *)
Theorem get_textures_without_minecraft (fs : tree) (root : path) :
  is_dir fs (root ++ ["assets"; "minecraft"]) = false ->
  forall p,
    p ∈ get_textures fs root <->
    is_file fs p = true /\ suffix p = ".png" /\ root `prefix_of` p /\ p <> root.
Proof.
  intros Hdir p. unfold get_textures. rewrite Hdir.
  rewrite list_elem_of_filter, elem_of_get_resources. tauto.
Qed.

Lemma get_textures_without_minecraft_witness :
  let o := Sample.original_assets in
  is_dir (files Sample.two_textures) (o ++ ["assets"; "minecraft"]) = false /\
  (o ++ ["a.png"] ∈ get_textures (files Sample.two_textures) o).
Proof.
  intros o.
  assert (Hdir : is_dir (files Sample.two_textures) (o ++ ["assets"; "minecraft"])
                 = false) by reflexivity.
  split; [exact Hdir |].
  apply (get_textures_without_minecraft _ o Hdir). repeat split; try reflexivity.
  - exists ["a.png"]. reflexivity.
  - discriminate.
Defined.

(** What the two buttons offer never overlaps, and both offer only files
    below the root: a sound is an [.ogg] file, a texture a [.png] file. *)
Theorem sounds_and_textures_apart (fs : tree) (root p : path) :
  (p ∈ get_sounds fs root ->
     is_file fs p = true /\ suffix p = ".ogg" /\ root `prefix_of` p /\
     p <> root /\ p ∉ get_textures fs root) /\
  (p ∈ get_textures fs root ->
     is_file fs p = true /\ suffix p = ".png" /\ root `prefix_of` p /\ p <> root).
Proof.
  assert (Ht : p ∈ get_textures fs root ->
     is_file fs p = true /\ suffix p = ".png" /\ root `prefix_of` p /\ p <> root).
  { unfold get_textures. rewrite list_elem_of_filter, elem_of_get_resources.
    intros (Hs & Hf & Hp & Hne).
    destruct (is_dir fs (root ++ ["assets"; "minecraft"])).
    - destruct (prefix_proper_app root ["assets"; "minecraft"] p Hp) as [H1 H2];
        [discriminate | auto].
    - auto. }
  split; [| exact Ht].
  unfold get_sounds. rewrite list_elem_of_filter, elem_of_get_resources.
  intros (Hs & Hf & Hp & Hne). repeat split; try assumption.
  intros Hin. apply Ht in Hin as (_ & Hpng & _). rewrite Hs in Hpng. discriminate.
Qed.

End CatalogFacts.

(** ** More on the image transform *)

Section ImageFacts.

Lemma shared_multiple_bounds (w ox h oy : Z) :
  dim ox -> dim oy -> dim w -> dim h ->
  let k := Z.min (w / ox) (h / oy) in
  k * ox <= w /\ k * oy <= h /\ (w < k * ox + ox \/ h < k * oy + oy).
Proof.
  unfold dim. intros Hox Hoy Hw Hh. cbv zeta.
  pose proof (Z.div_mod w ox ltac:(lia)) as Hdx.
  pose proof (Z.mod_pos_bound w ox ltac:(lia)) as Hrx.
  pose proof (Z.div_mod h oy ltac:(lia)) as Hdy.
  pose proof (Z.mod_pos_bound h oy ltac:(lia)) as Hry.
  destruct (Z.min_spec (w / ox) (h / oy)) as [[Hlt ->] | [Hle ->]]; nia.
Qed.

Lemma dims_within_pixel_limit (ox oy w h : Z) :
  0 < ox <= w -> 0 < oy <= h -> PIL.within_pixel_limit (w, h) = true ->
  dim ox /\ dim oy /\ dim w /\ dim h.
Proof.
  unfold PIL.within_pixel_limit, PIL.MAX_IMAGE_PIXELS, dim. cbn [fst snd].
  intros Hx Hy Hlim. apply Z.leb_le in Hlim.
  rewrite !Z.max_r in Hlim by lia.
  change (2 ^ 52) with 4503599627370496. nia.
Qed.

(** An upload that Pillow opens, that is one within its pixel limit, and
    that is at least as large as the original on both axes is always
    processed.  The result fits inside the upload, has the original's
    aspect ratio exactly, is at least as large as the original, and is the
    largest such multiple: one more copy of the original would not fit. *)
Theorem process_image_fits_inside_upload (fs : tree) (original_path : path)
    (ox oy w h : Z) (opx px : pixels) :
  0 < ox <= w -> 0 < oy <= h ->
  PIL.within_pixel_limit (w, h) = true ->
  fs !! original_path =
    Some (File (ImageBytes {| img_size := (ox, oy); img_pixels := opx |})) ->
  exists nx ny px',
    process_image fs (ImageBytes {| img_size := (w, h); img_pixels := px |})
                  original_path =
      Ok (ImageBytes {| img_size := (nx, ny); img_pixels := px' |}) /\
    ox <= nx <= w /\ oy <= ny <= h /\ nx * oy = ny * ox /\
    (w < nx + ox \/ h < ny + oy).
Proof.
  intros Hx Hy Hlim Hfs.
  destruct (dims_within_pixel_limit ox oy w h Hx Hy Hlim) as (Hox & Hoy & Hw & Hh).
  assert (Hwx : ox <= w) by lia. assert (Hhy : oy <= h) by lia.
  rewrite (process_image_unfold fs original_path ox oy w h opx px) by assumption.
  destruct (shared_multiple_bounds w ox h oy Hox Hoy Hw Hh) as (B1 & B2 & B3).
  assert (Hk : 1 <= Z.min (w / ox) (h / oy)).
  { unfold dim in *.
    pose proof (Z.div_le_lower_bound w ox 1 ltac:(lia) ltac:(lia)).
    pose proof (Z.div_le_lower_bound h oy 1 ltac:(lia) ltac:(lia)). lia. }
  set (k := Z.min (w / ox) (h / oy)) in *.
  destruct (resize_positive
              {| img_size := (w, h); img_pixels := Converted "RGBA" px |}
              (k * ox, k * oy)) as ([sz px'] & -> & Hsz);
    [unfold dim in *; cbn; nia .. |].
  cbn in Hsz. subst sz. exists (k * ox), (k * oy), px'.
  split; [reflexivity |]. unfold dim in *. repeat split; nia.
Qed.

Lemma process_image_fits_inside_upload_witness :
  let fs : tree :=
    {[ ["original_assets"; "a.png"] :=
         File (ImageBytes {| img_size := (16, 32); img_pixels := Pixels 1 |}) ]} in
  (0 < 16 <= 100 /\ 0 < 32 <= 70 /\ PIL.within_pixel_limit (100, 70) = true) /\
  exists nx ny px',
    process_image fs (ImageBytes {| img_size := (100, 70); img_pixels := Pixels 2 |})
                  ["original_assets"; "a.png"] =
      Ok (ImageBytes {| img_size := (nx, ny); img_pixels := px' |}) /\
    16 <= nx <= 100 /\ 32 <= ny <= 70 /\ nx * 32 = ny * 16 /\
    (100 < nx + 16 \/ 70 < ny + 32).
Proof.
  intros fs.
  assert (D : 0 < 16 <= 100 /\ 0 < 32 <= 70 /\
              PIL.within_pixel_limit (100, 70) = true)
    by (split; [lia | split; [lia | reflexivity]]).
  split; [exact D |].
  destruct D as (D1 & D2 & D3).
  exact (process_image_fits_inside_upload fs ["original_assets"; "a.png"]
           16 32 100 70 (Pixels 1) (Pixels 2) D1 D2 D3 eq_refl).
Defined.

(** Processing is idempotent on sizes: what [process_image] returns goes
    through [process_image] again with its size unchanged, and without
    being resampled. *)
Theorem process_image_twice_same_size (fs : tree) (original_path : path)
    (ox oy w h : Z) (opx px : pixels) (img1 : image) :
  dim ox -> dim oy -> dim w -> dim h ->
  fs !! original_path =
    Some (File (ImageBytes {| img_size := (ox, oy); img_pixels := opx |})) ->
  process_image fs (ImageBytes {| img_size := (w, h); img_pixels := px |})
                original_path = Ok (ImageBytes img1) ->
  process_image fs (ImageBytes img1) original_path =
    Ok (ImageBytes {| img_size := img_size img1;
                      img_pixels := Converted "RGBA" (img_pixels img1) |}).
Proof.
  intros Hox Hoy Hw Hh Hfs Hrun.
  rewrite (process_image_unfold fs original_path ox oy w h opx px) in Hrun
    by assumption.
  destruct (shared_multiple_bounds w ox h oy Hox Hoy Hw Hh) as (B1 & B2 & _).
  pose proof (shared_multiple_nonneg w ox h oy Hox Hoy Hw Hh) as Hk0.
  set (k := Z.min (w / ox) (h / oy)) in *.
  destruct (Z.eq_dec k 0) as [E0 | Hne].
  { rewrite E0, resize_zero in Hrun; [discriminate |]. unfold dim in Hw. cbn. lia. }
  destruct (PIL.resize (k * ox, k * oy) _) as [img |] eqn:Er; [| discriminate].
  cbn in Hrun. injection Hrun as <-.
  apply resize_size in Er. destruct img as [sz px1]. cbn in Er. subst sz.
  rewrite (process_image_unfold fs original_path ox oy (k * ox) (k * oy) opx px1);
    try assumption; [| unfold dim in *; nia ..].
  unfold dim in *. rewrite !Z.div_mul by lia. rewrite Z.min_id.
  unfold PIL.resize. cbn [img_size]. rewrite decide_True by reflexivity.
  reflexivity.
Qed.

Lemma process_image_twice_same_size_witness :
  let fs : tree :=
    {[ ["original_assets"; "a.png"] :=
         File (ImageBytes {| img_size := (16, 16); img_pixels := Pixels 1 |}) ]} in
  let once := {| img_size := (32, 32);
                 img_pixels := Resized 32 32 (Converted "RGBA" (Pixels 2)) |} in
  (dim 16 /\ dim 48 /\ dim 32 /\
   process_image fs (ImageBytes {| img_size := (48, 32); img_pixels := Pixels 2 |})
     ["original_assets"; "a.png"] = Ok (ImageBytes once)) /\
  process_image fs (ImageBytes once) ["original_assets"; "a.png"] =
    Ok (ImageBytes {| img_size := (32, 32);
                      img_pixels := Converted "RGBA" (img_pixels once) |}).
Proof.
  intros fs once.
  assert (D : dim 16 /\ dim 48 /\ dim 32) by (unfold dim; lia).
  destruct D as (D1 & D2 & D3).
  assert (R : process_image fs
                (ImageBytes {| img_size := (48, 32); img_pixels := Pixels 2 |})
                ["original_assets"; "a.png"] = Ok (ImageBytes once))
    by (vm_compute; reflexivity).
  split; [repeat split; assumption |].
  exact (process_image_twice_same_size fs ["original_assets"; "a.png"]
           16 16 48 32 (Pixels 1) (Pixels 2) once D1 D1 D2 D3 eq_refl R).
Defined.

End ImageFacts.

(** ** More on the handlers *)

Section HandlerFacts.

Ltac run_action :=
  unfold mbind, action_bind, mret, action_ret, raise, lift, read, emit,
    set_files, set_table, try_except; cbn; cbv beta iota delta [fst snd].

Lemma elem_of_parents_rev (q p : path) :
  q ∈ parents_rev p <-> q `prefix_of` p /\ q <> p.
Proof.
  revert q. induction p as [| x p IH]; intros q; cbn.
  - rewrite elem_of_nil. split; [tauto |].
    intros [H Hne]. apply prefix_nil_inv in H. contradiction.
  - rewrite elem_of_cons, list_elem_of_fmap. split.
    + intros [-> | (q' & -> & Hq')].
      * split; [apply prefix_nil | discriminate].
      * apply IH in Hq' as [Hp Hne]. split; [apply prefix_cons, Hp | congruence].
    + intros [Hp Hne]. destruct q as [| y q']; [left; reflexivity | right].
      pose proof (prefix_cons_inv_1 _ _ _ _ Hp) as ->.
      apply prefix_cons_inv_2 in Hp.
      exists q'. split; [reflexivity |]. apply IH. split; [exact Hp | congruence].
Qed.

Lemma elem_of_parents (q p : path) :
  q ∈ parents p <-> q `prefix_of` p /\ q <> p.
Proof. unfold parents. rewrite elem_of_reverse. apply elem_of_parents_rev. Qed.

Lemma lookup_foldr_dirs (fs : tree) (l : list path) (p : path) :
  foldr (fun q acc => <[q := Dir]> acc) fs l !! p =
  if decide (p ∈ l) then Some Dir else fs !! p.
Proof.
  induction l as [| q l IH]; cbn.
  - rewrite decide_False by apply not_elem_of_nil. reflexivity.
  - destruct (decide (q = p)) as [-> | Hne].
    + rewrite lookup_insert_eq. rewrite decide_True by (apply elem_of_cons; auto).
      reflexivity.
    + rewrite lookup_insert_ne by exact Hne. rewrite IH.
      destruct (decide (p ∈ l)) as [Hin | Hni].
      * rewrite decide_True by (apply elem_of_cons; auto). reflexivity.
      * rewrite decide_False; [reflexivity |].
        intros Hc. apply elem_of_cons in Hc as [-> | Hc]; contradiction.
Qed.

(** [with_dirs] touches the prefixes of [d] and nothing else. *)
Lemma lookup_with_dirs (fs : tree) (d p : path) :
  with_dirs fs d !! p = if decide (p `prefix_of` d) then Some Dir else fs !! p.
Proof.
  unfold with_dirs. rewrite lookup_foldr_dirs.
  destruct (decide (p `prefix_of` d)) as [Hp | Hnp].
  - rewrite decide_True; [reflexivity |].
    destruct (decide (p = d)) as [-> | Hne]; apply elem_of_cons; [auto |].
    right. apply elem_of_parents. auto.
  - rewrite decide_False; [reflexivity |].
    intros Hc. apply elem_of_cons in Hc as [-> | Hc]; [apply Hnp; reflexivity |].
    apply elem_of_parents in Hc as [Hc _]. contradiction.
Qed.

Ltac step_action :=
  unfold mbind, action_bind, mret, action_ret, raise, lift, read, emit,
    set_files, set_table, try_except; cbv beta iota delta [fst snd].

Lemma mkdir_parents_run (d : path) (w : world) (out : list event) :
  mkdir_parents d (w, out) =
  if is_file (files w) d then ((w, out), Raise FileExistsError)
  else if existsb (is_file (files w)) (parents d)
  then ((w, out), Raise NotADirectoryError)
  else ((with_files w (with_dirs (files w) d), out), Ok ()).
Proof.
  unfold mkdir_parents. step_action.
  destruct (is_file (files w) d); [reflexivity |].
  destruct (existsb (is_file (files w)) (parents d)); reflexivity.
Qed.

Lemma write_file_run (p : path) (b : blob) (w : world) (out : list event) :
  write_file p b (w, out) =
  if is_dir (files w) p then ((w, out), Raise IsADirectoryError)
  else if negb (is_dir (files w) (parent p))
  then ((w, out), Raise (not_a_directory (files w) (parent p)))
  else ((with_files w (<[p := File b]> (files w)), out), Ok ()).
Proof.
  unfold write_file. step_action.
  destruct (is_dir (files w) p); [reflexivity |].
  destruct (negb (is_dir (files w) (parent p))); reflexivity.
Qed.

(** [save_uploaded_file], step by step. *)
Lemma save_uploaded_file_run (a : attachment) (o d : path) (w : world)
    (out : list event) :
  save_uploaded_file a o d (w, out) =
  match content_type a with
  | None => ((w, out), Raise AttributeError)
  | Some ct =>
      match processed_upload (files w) ct a o with
      | Raise e => ((w, out), Raise e)
      | Ok b =>
          if is_file (files w) (parent d) then ((w, out), Raise FileExistsError)
          else if existsb (is_file (files w)) (parents (parent d))
          then ((w, out), Raise NotADirectoryError)
          else if is_dir (with_dirs (files w) (parent d)) d
          then ((with_files w (with_dirs (files w) (parent d)), out),
                Raise IsADirectoryError)
          else ((with_files w (saved (files w) b o d), out), Ok ())
      end
  end.
Proof.
  unfold save_uploaded_file.
  destruct (content_type a) as [ct |]; [| reflexivity].
  fold (processed_upload (files w) ct a o).
  unfold mbind at 1 2 3, action_bind, lift, read. cbv beta iota delta [fst snd].
  fold (processed_upload (files w) ct a o).
  destruct (processed_upload (files w) ct a o) as [b | e]; [| reflexivity].
  unfold mbind at 1, action_bind. rewrite mkdir_parents_run.
  destruct (is_file (files w) (parent d)); [reflexivity |].
  destruct (existsb (is_file (files w)) (parents (parent d))); [reflexivity |].
  unfold mbind at 1, action_bind. rewrite write_file_run. cbn [files with_files].
  destruct (is_dir (with_dirs (files w) (parent d)) d); [reflexivity |].
  assert (Hpd : is_dir (with_dirs (files w) (parent d)) (parent d) = true)
    by (unfold is_dir; rewrite lookup_with_dirs, decide_True by reflexivity;
        reflexivity).
  rewrite Hpd. cbn [negb]. unfold unlink, saved. step_action.
  cbn [files with_files assigned_files].
  destruct (is_file _ o); reflexivity.
Qed.

(** [submit_file] for the claimant: the upload is saved and the handler goes
    on, or the failure is reported and the handler returns. *)
Lemma submit_file_assigned (root : path) (author : Z) (a : attachment)
    (rest : list attachment) (sp : path) (w : world) (out : list event) :
  Sql.select_user_id (assigned_files w) sp = Some author ->
  submit_file root author (a :: rest) sp (w, out) =
  match save_uploaded_file a ((root ++ ["original_assets"]) ++ sp)
          (root ++ ["new_assets"] ++ sp) (w, out) with
  | ((w1, out1), Ok _) => after_submitted root (released w1 sp, out1)
  | ((w1, out1), Raise e) =>
      ((w1, out1 ++ [Reply ("Failed to submit file: " +:+ exn_str e)]), Ok ())
  end.
Proof.
  intros Hsel. unfold submit_file, after_submitted. step_action.
  rewrite Hsel. cbn [not_assigned_to]. rewrite Z.eqb_refl. cbn [negb].
  destruct (save_uploaded_file a _ _ (w, out)) as [[w1 out1] [[] | e]];
    reflexivity.
Qed.

Lemma submit_file_no_attachment (root : path) (author : Z) (sp : path)
    (w : world) (out : list event) :
  Sql.select_user_id (assigned_files w) sp = Some author ->
  submit_file root author [] sp (w, out) =
    ((w, out ++ [Reply "Failed to submit file: list index out of range"]), Ok ()).
Proof.
  intros Hsel. unfold submit_file. step_action.
  rewrite Hsel. cbn [not_assigned_to]. rewrite Z.eqb_refl. reflexivity.
Qed.

Lemma parent_snoc (l : path) (x : string) : parent (l ++ [x]) = l.
Proof. apply removelast_last. Qed.

(** [after_submitted], step by step. *)
Lemma after_submitted_run (root : path) (w : world) (out : list event) :
  after_submitted root (w, out) =
  let out1 := out ++ [Reply "File submitted."] in
  let new_assets := root ++ ["new_assets"] in
  if completion_check (files w) (root ++ ["original_assets"]) then
    if is_dir (files w) (new_assets ++ ["pack.mcmeta"])
    then ((w, out1), Raise IsADirectoryError)
    else if negb (is_dir (files w) new_assets)
    then ((w, out1), Raise (not_a_directory (files w) new_assets))
    else
      let fs := <[new_assets ++ ["pack.mcmeta"] :=
                    File (OtherBytes pack_mcmeta)]> (files w) in
      match zip_entries fs new_assets (get_resources fs new_assets) with
      | Ok zip =>
          ((with_files w fs, out1 ++ [ManagerEdit "Resource pack ready." zip]),
           Ok ())
      | Raise e => ((with_files w fs, out1), Raise e)
      end
  else ((w, out1), Ok ()).
Proof.
  unfold after_submitted, create_final_zip.
  unfold mbind at 1 2, action_bind, emit, read. cbv beta iota delta [fst snd].
  destruct (completion_check (files w) (root ++ ["original_assets"]));
    [| reflexivity].
  unfold mbind at 1 2, action_bind. rewrite write_file_run. cbn [files].
  rewrite parent_snoc.
  destruct (is_dir (files w) ((root ++ ["new_assets"]) ++ ["pack.mcmeta"]));
    [reflexivity |].
  destruct (negb (is_dir (files w) (root ++ ["new_assets"]))); [reflexivity |].
  step_action. cbn [files with_files].
  destruct (zip_entries _ _ _); reflexivity.
Qed.

Lemma relative_to_prefix (p root : path) :
  root `prefix_of` p -> exists rel, relative_to p root = Ok rel /\ p = root ++ rel.
Proof.
  intros [rel ->]. exists rel. split; [| reflexivity].
  induction root as [| r root IH]; cbn; [reflexivity |].
  rewrite decide_True by reflexivity. exact IH.
Qed.

(** Zipping a list of files below the root never fails; the archive names
    each of them by its path relative to the root. *)
Lemma zip_entries_ok (fs : tree) (root : path) (ps : list path) :
  (forall p, p ∈ ps -> is_file fs p = true /\ root `prefix_of` p) ->
  exists zip,
    zip_entries fs root ps = Ok zip /\
    forall rel b, (rel, b) ∈ zip <->
                  root ++ rel ∈ ps /\ fs !! (root ++ rel) = Some (File b).
Proof.
  induction ps as [| p ps IH]; intros Hps; cbn.
  - exists []. split; [reflexivity |]. intros rel b.
    rewrite !elem_of_nil. tauto.
  - destruct (Hps p) as [Hf Hp]; [apply elem_of_cons; auto |].
    destruct IH as (zip & -> & Hzip);
      [intros q Hq; apply Hps, elem_of_cons; auto |].
    destruct (relative_to_prefix p root Hp) as (rel0 & -> & ->).
    unfold open_path. unfold is_file in Hf.
    destruct (fs !! (root ++ rel0)) as [[b0 |] |] eqn:Eb; try discriminate.
    cbn. exists ((rel0, b0) :: zip). split; [reflexivity |].
    intros rel b. rewrite !elem_of_cons, Hzip. split.
    + intros [[= -> ->] | [H1 H2]]; auto.
    + intros [[E | H1] H2]; [left | right; auto].
      apply app_inv_head in E. subst rel0. congruence.
Qed.

Lemma parent_prefix (d : path) : parent d `prefix_of` d.
Proof.
  destruct d as [| x d']; [reflexivity |]. unfold parent.
  exists [List.last (x :: d') ""%string].
  apply app_removelast_last. discriminate.
Qed.

Lemma under_original_not_prefix_of_dest (root sp p : path) :
  (root ++ ["original_assets"]) `prefix_of` p ->
  ~ p `prefix_of` (root ++ ["new_assets"] ++ sp).
Proof.
  intros H1 H2. apply (new_assets_not_under_original root sp).
  rewrite <- app_assoc. etransitivity; eassumption.
Qed.

Lemma under_original_not_prefix_of_parent (root sp p : path) :
  (root ++ ["original_assets"]) `prefix_of` p ->
  ~ p `prefix_of` parent (root ++ ["new_assets"] ++ sp).
Proof.
  intros H1 H2. apply (under_original_not_prefix_of_dest root sp p H1).
  etransitivity; [exact H2 | apply parent_prefix].
Qed.

Lemma lookup_with_dirs_under_original (fs : tree) (root sp p : path) :
  (root ++ ["original_assets"]) `prefix_of` p ->
  with_dirs fs (parent (root ++ ["new_assets"] ++ sp)) !! p = fs !! p.
Proof.
  intros Hp. rewrite lookup_with_dirs. apply decide_False.
  apply under_original_not_prefix_of_parent, Hp.
Qed.

Lemma lookup_saved_under_original (fs : tree) (b : blob) (root sp p : path) :
  (root ++ ["original_assets"]) `prefix_of` p ->
  p <> (root ++ ["original_assets"]) ++ sp ->
  saved fs b ((root ++ ["original_assets"]) ++ sp) (root ++ ["new_assets"] ++ sp) !! p
  = fs !! p.
Proof.
  intros Hp Hne. unfold saved.
  assert (Hd : root ++ ["new_assets"] ++ sp <> p).
  { intros <-. apply (under_original_not_prefix_of_dest root sp _ Hp). reflexivity. }
  destruct (is_file _ _).
  - rewrite lookup_delete_ne by congruence. rewrite lookup_insert_ne by exact Hd.
    apply lookup_with_dirs_under_original, Hp.
  - rewrite lookup_insert_ne by exact Hd.
    apply lookup_with_dirs_under_original, Hp.
Qed.

Lemma is_file_saved_original (fs : tree) (b : blob) (o d : path) :
  is_file (saved fs b o d) o = false.
Proof.
  unfold saved. cbv zeta.
  destruct (is_file (<[d := File b]> (with_dirs fs (parent d))) o) eqn:E;
    [| exact E].
  unfold is_file. rewrite lookup_delete_eq. reflexivity.
Qed.

Lemma pack_mcmeta_not_under_original (root p : path) :
  (root ++ ["original_assets"]) `prefix_of` p ->
  (root ++ ["new_assets"]) ++ ["pack.mcmeta"] <> p.
Proof.
  intros Hp <-. exact (new_assets_not_under_original root _ Hp).
Qed.

(** The files of the pack after [after_submitted]: as before, or with the
    metadata file added. *)
Lemma after_submitted_files (root : path) (w : world) (out : list event) :
  let r := after_submitted root (w, out) in
  assigned_files r.1.1 = assigned_files w /\
  (exists more, r.1.2 = out ++ Reply "File submitted." :: more) /\
  (files r.1.1 = files w \/
   files r.1.1 = <[(root ++ ["new_assets"]) ++ ["pack.mcmeta"] :=
                     File (OtherBytes pack_mcmeta)]> (files w)).
Proof.
  cbv zeta. rewrite after_submitted_run. cbv zeta.
  repeat case_match; cbn; (split; [reflexivity |]); split; eauto.
  eexists. rewrite <- (app_assoc out). reflexivity.
Qed.

(** A submission is all or nothing.  Either it is turned down with one
    reply, and then the table and everything below [original_assets] are as
    they were; or the claimant's upload is saved, and then the row is
    deleted and the original file is gone. *)
Theorem submission_all_or_nothing (root : path) (author : Z)
    (attachments : list attachment) (sp : path) (w : world) (out : list event) :
  let r := submit_file root author attachments sp (w, out) in
  (exists msg, msg <> "File submitted."%string /\ r.2 = Ok () /\
     r.1.2 = out ++ [Reply msg] /\
     assigned_files r.1.1 = assigned_files w /\
     forall p, (root ++ ["original_assets"]) `prefix_of` p ->
               files r.1.1 !! p = files w !! p) \/
  (Sql.select_user_id (assigned_files w) sp = Some author /\
   (exists more, r.1.2 = out ++ Reply "File submitted." :: more) /\
   assigned_files r.1.1 = Sql.delete_file_path sp (assigned_files w) /\
   is_file (files r.1.1) ((root ++ ["original_assets"]) ++ sp) = false).
Proof.
  cbv zeta.
  destruct (decide (Sql.select_user_id (assigned_files w) sp = Some author))
    as [Hsel | Hsel].
  2:{ left. rewrite (submit_file_rejects_unassigned _ _ _ _ _ _ Hsel).
      eexists. split; [| repeat split; reflexivity]. discriminate. }
  destruct attachments as [| a rest].
  { left. rewrite (submit_file_no_attachment _ _ _ _ _ Hsel).
    eexists. split; [| repeat split; reflexivity]. discriminate. }
  rewrite (submit_file_assigned _ _ _ _ _ _ _ Hsel), save_uploaded_file_run.
  destruct (content_type a) as [ct |].
  2:{ left. eexists. split; [| repeat split; reflexivity]. discriminate. }
  destruct (processed_upload (files w) ct a _) as [b | e].
  2:{ left. eexists. split; [| repeat split; reflexivity]. cbn. discriminate. }
  destruct (is_file (files w) _).
  { left. eexists. split; [| repeat split; reflexivity]. discriminate. }
  destruct (existsb _ _).
  { left. eexists. split; [| repeat split; reflexivity]. discriminate. }
  destruct (is_dir _ _).
  { left. eexists. split; [| repeat split; try reflexivity]; [discriminate |].
    intros p Hp. cbn. apply lookup_with_dirs_under_original, Hp. }
  right. split; [exact Hsel |].
  destruct (after_submitted_files root
              (released (with_files w (saved (files w) b
                 ((root ++ ["original_assets"]) ++ sp)
                 (root ++ ["new_assets"] ++ sp))) sp) out) as (Ht & Hout & Hf).
  split; [exact Hout |]. split; [rewrite Ht; reflexivity |].
  cbn [files released with_files] in Hf. destruct Hf as [-> | ->].
  - apply is_file_saved_original.
  - unfold is_file. rewrite lookup_insert_ne.
    + apply is_file_saved_original.
    + apply pack_mcmeta_not_under_original. apply prefix_app_r. reflexivity.
Qed.

(** Whatever happens, a submission changes nothing below [original_assets]
    but the file it is for. *)
Theorem submission_leaves_other_originals (root : path) (author : Z)
    (attachments : list attachment) (sp : path) (w : world) (out : list event)
    (p : path) :
  (root ++ ["original_assets"]) `prefix_of` p ->
  p <> (root ++ ["original_assets"]) ++ sp ->
  files (submit_file root author attachments sp (w, out)).1.1 !! p = files w !! p.
Proof.
  intros Hp Hne.
  destruct (decide (Sql.select_user_id (assigned_files w) sp = Some author))
    as [Hsel | Hsel].
  2:{ rewrite (submit_file_rejects_unassigned _ _ _ _ _ _ Hsel). reflexivity. }
  destruct attachments as [| a rest].
  { rewrite (submit_file_no_attachment _ _ _ _ _ Hsel). reflexivity. }
  rewrite (submit_file_assigned _ _ _ _ _ _ _ Hsel), save_uploaded_file_run.
  destruct (content_type a) as [ct |]; [| reflexivity].
  destruct (processed_upload (files w) ct a _) as [b | e]; [| reflexivity].
  destruct (is_file (files w) _); [reflexivity |].
  destruct (existsb _ _); [reflexivity |].
  destruct (is_dir _ _).
  { cbn. apply lookup_with_dirs_under_original, Hp. }
  destruct (after_submitted_files root
              (released (with_files w (saved (files w) b
                 ((root ++ ["original_assets"]) ++ sp)
                 (root ++ ["new_assets"] ++ sp))) sp) out) as (_ & _ & Hf).
  cbn [files released with_files] in Hf. destruct Hf as [-> | ->].
  - apply lookup_saved_under_original; assumption.
  - rewrite lookup_insert_ne by (apply pack_mcmeta_not_under_original, Hp).
    apply lookup_saved_under_original; assumption.
Qed.

Lemma submission_leaves_other_originals_witness :
  let o := Sample.original_assets in
  let r := submit_file Sample.pack 7 [Sample.upload 48 32] ["a.png"]
             (Sample.a_with_7, []) in
  (o `prefix_of` (o ++ ["b.png"]) /\ o ++ ["b.png"] <> o ++ ["a.png"]) /\
  files r.1.1 !! (o ++ ["b.png"]) = Some (File (Sample.texture 2)).
Proof.
  intros o r.
  assert (H1 : o `prefix_of` (o ++ ["b.png"])) by (exists ["b.png"]; reflexivity).
  assert (H2 : o ++ ["b.png"] <> o ++ ["a.png"]) by discriminate.
  split; [split; assumption |].
  exact (submission_leaves_other_originals Sample.pack 7 [Sample.upload 48 32]
           ["a.png"] Sample.a_with_7 [] (o ++ ["b.png"]) H1 H2).
Defined.

Lemma parent_proper (d : path) : d <> [] -> ~ d `prefix_of` parent d.
Proof.
  intros Hne Hp. apply prefix_length in Hp.
  rewrite (app_removelast_last ""%string Hne) in Hp at 1.
  unfold parent in Hp. rewrite length_app in Hp. cbn in Hp. lia.
Qed.

(** The upload of the claimant is accepted when it can be processed, no
    regular file sits where a directory of the new path has to be, and the
    new path is not a directory. *)
Lemma submit_file_accepted (root : path) (author : Z) (a : attachment)
    (rest : list attachment) (sp : path) (w : world) (out : list event)
    (ct : string) (b : blob) :
  let o := (root ++ ["original_assets"]) ++ sp in
  let d := root ++ ["new_assets"] ++ sp in
  Sql.select_user_id (assigned_files w) sp = Some author ->
  content_type a = Some ct ->
  processed_upload (files w) ct a o = Ok b ->
  (forall q, q `prefix_of` d -> q <> d -> is_file (files w) q = false) ->
  is_dir (files w) d = false ->
  submit_file root author (a :: rest) sp (w, out) =
    after_submitted root (released (with_files w (saved (files w) b o d)) sp, out).
Proof.
  intros o d Hsel Hct Hproc Hfree Hnd.
  assert (Hd : d <> []) by (unfold d; destruct root; discriminate).
  assert (Hpd : parent d <> d).
  { intros E. apply (parent_proper d Hd). rewrite E. reflexivity. }
  rewrite (submit_file_assigned _ _ _ _ _ _ _ Hsel), save_uploaded_file_run.
  fold o d. rewrite Hct, Hproc.
  rewrite (Hfree (parent d) (parent_prefix d) Hpd).
  destruct (existsb (is_file (files w)) (parents (parent d))) eqn:Ex.
  { apply existsb_exists in Ex as (q & Hq & Hf).
    apply list_elem_of_In, elem_of_parents in Hq as [Hq1 Hq2].
    rewrite Hfree in Hf; [discriminate | |].
    - etransitivity; [exact Hq1 | apply parent_prefix].
    - intros ->. exact (parent_proper d Hd Hq1). }
  assert (Ed : is_dir (with_dirs (files w) (parent d)) d = false).
  { unfold is_dir. rewrite lookup_with_dirs.
    rewrite decide_False by (apply parent_proper, Hd). exact Hnd. }
  rewrite Ed. reflexivity.
Qed.

Lemma lookup_saved_new (fs : tree) (b : blob) (o d : path) :
  o <> d -> saved fs b o d !! d = Some (File b).
Proof.
  intros Hne. unfold saved. cbv zeta. destruct (is_file _ o).
  - rewrite lookup_delete_ne by exact Hne. apply lookup_insert_eq.
  - apply lookup_insert_eq.
Qed.

Lemma original_is_not_dest (root sp : path) :
  (root ++ ["original_assets"]) ++ sp <> root ++ ["new_assets"] ++ sp.
Proof.
  intros E. apply (under_original_not_prefix_of_dest root sp
                     ((root ++ ["original_assets"]) ++ sp)).
  - apply prefix_app_r. reflexivity.
  - rewrite E. reflexivity.
Qed.

(** What an accepted submission leaves behind, when the new path is not the
    metadata file of the archive. *)
Lemma accepted_submission_state (root : path) (sp : path) (w : world)
    (out : list event) (b : blob) :
  let o := (root ++ ["original_assets"]) ++ sp in
  let d := root ++ ["new_assets"] ++ sp in
  let r := after_submitted root (released (with_files w (saved (files w) b o d)) sp,
                                 out) in
  sp <> ["pack.mcmeta"] ->
  (exists more, r.1.2 = out ++ Reply "File submitted." :: more) /\
  files r.1.1 !! d = Some (File b) /\
  is_file (files r.1.1) o = false /\
  assigned_files r.1.1 = Sql.delete_file_path sp (assigned_files w).
Proof.
  intros o d r Hsp.
  destruct (after_submitted_files root
              (released (with_files w (saved (files w) b o d)) sp) out)
    as (Ht & Hout & Hf).
  fold r in Ht, Hout, Hf. cbn [files released with_files] in Hf.
  assert (Hm : (root ++ ["new_assets"]) ++ ["pack.mcmeta"] <> d).
  { unfold d. rewrite <- app_assoc. intros E. apply app_inv_head in E.
    cbn in E. congruence. }
  split; [exact Hout |]. split; [| split; [| rewrite Ht; reflexivity]].
  - destruct Hf as [-> | ->].
    + apply lookup_saved_new, original_is_not_dest.
    + rewrite lookup_insert_ne by exact Hm.
      apply lookup_saved_new, original_is_not_dest.
  - destruct Hf as [-> | ->].
    + apply is_file_saved_original.
    + unfold is_file. rewrite lookup_insert_ne.
      * apply is_file_saved_original.
      * apply pack_mcmeta_not_under_original. apply prefix_app_r. reflexivity.
Qed.

(** The declared content type alone picks the transform.  An upload
    declared as audio is accepted for any asset the user holds, a texture
    as well, since [process_sound] never looks at the original; what is
    stored is mono at 16 kHz, the original is removed and the row deleted. *)
Theorem audio_upload_accepted_for_any_asset (root : path) (author : Z)
    (a : attachment) (rest : list attachment) (sp : path) (w : world)
    (out : list event) (ct : string) (snd : sound) :
  let o := (root ++ ["original_assets"]) ++ sp in
  let d := root ++ ["new_assets"] ++ sp in
  let r := submit_file root author (a :: rest) sp (w, out) in
  Sql.select_user_id (assigned_files w) sp = Some author ->
  content_type a = Some ct ->
  String.prefix "image" ct = false -> String.prefix "audio" ct = true ->
  data a = AudioBytes snd ->
  (forall q, q `prefix_of` d -> q <> d -> is_file (files w) q = false) ->
  is_dir (files w) d = false ->
  sp <> ["pack.mcmeta"] ->
  (exists more, r.1.2 = out ++ Reply "File submitted." :: more) /\
  files r.1.1 !! d =
    Some (File (AudioBytes {| channels := 1; frame_rate := 16000;
                              samples := samples snd |})) /\
  is_file (files r.1.1) o = false /\
  assigned_files r.1.1 = Sql.delete_file_path sp (assigned_files w).
Proof.
  intros o d r Hsel Hct Himg Haud Hdata Hfree Hnd Hsp. unfold r.
  rewrite (submit_file_accepted root author a rest sp w out ct
             (AudioBytes {| channels := 1; frame_rate := 16000;
                            samples := samples snd |}) Hsel Hct);
    [apply accepted_submission_state, Hsp | | exact Hfree | exact Hnd].
  unfold processed_upload. rewrite Himg, Haud, Hdata. reflexivity.
Qed.

Lemma audio_upload_accepted_for_any_asset_witness :
  let snd := {| channels := 2; frame_rate := 44100; samples := 5%N |} in
  let a := {| content_type := Some "audio/mpeg"%string; data := AudioBytes snd |} in
  let d := Sample.pack ++ ["new_assets"] ++ ["a.png"] in
  let r := submit_file Sample.pack 7 [a] ["a.png"] (Sample.a_with_7, []) in
  (Sql.select_user_id (assigned_files Sample.a_with_7) ["a.png"] = Some 7 /\
   (forall q, q `prefix_of` d -> q <> d ->
              is_file (files Sample.a_with_7) q = false)) /\
  files r.1.1 !! d =
    Some (File (AudioBytes {| channels := 1; frame_rate := 16000; samples := 5%N |})) /\
  is_file (files r.1.1) (Sample.original_assets ++ ["a.png"]) = false.
Proof.
  intros snd a d r.
  assert (Hfree : forall q, q `prefix_of` d -> q <> d ->
                            is_file (files Sample.a_with_7) q = false).
  { intros q Hq Hne. unfold is_file.
    destruct (files Sample.a_with_7 !! q) as [[b |] |] eqn:E; try reflexivity.
    exfalso. apply elem_of_map_to_list in E. vm_compute in E.
    repeat (apply elem_of_cons in E as [E | E];
            [first [discriminate E
                   | injection E as -> _; destruct Hq as [k Hk]; discriminate Hk] |]).
    apply elem_of_nil in E. exact E. }
  split; [split; [reflexivity | exact Hfree] |].
  destruct (audio_upload_accepted_for_any_asset Sample.pack 7 a [] ["a.png"]
              Sample.a_with_7 [] "audio/mpeg" snd eq_refl eq_refl eq_refl eq_refl
              eq_refl Hfree eq_refl ltac:(discriminate))
    as (_ & H1 & H2 & _).
  split; assumption.
Defined.

(** An upload whose declared content type is neither an image nor an audio
    type is turned down as an invalid file type, and nothing changes. *)
Theorem foreign_content_type_rejected (root : path) (author : Z)
    (a : attachment) (rest : list attachment) (sp : path) (w : world)
    (out : list event) (ct : string) :
  Sql.select_user_id (assigned_files w) sp = Some author ->
  content_type a = Some ct ->
  String.prefix "image" ct = false -> String.prefix "audio" ct = false ->
  submit_file root author (a :: rest) sp (w, out) =
    ((w, out ++ [Reply "Failed to submit file: Invalid file type"]), Ok ()).
Proof.
  intros Hsel Hct Himg Haud.
  rewrite (submit_file_assigned _ _ _ _ _ _ _ Hsel), save_uploaded_file_run.
  rewrite Hct. unfold processed_upload. rewrite Himg, Haud. reflexivity.
Qed.

Lemma foreign_content_type_rejected_witness :
  let a := {| content_type := Some "application/zip"%string;
              data := OtherBytes "PK" |} in
  Sql.select_user_id (assigned_files Sample.a_with_7) ["a.png"] = Some 7 /\
  submit_file Sample.pack 7 [a] ["a.png"] (Sample.a_with_7, []) =
    ((Sample.a_with_7, [Reply "Failed to submit file: Invalid file type"]), Ok ()).
Proof.
  intros a. split; [reflexivity |].
  exact (foreign_content_type_rejected Sample.pack 7 a [] ["a.png"]
           Sample.a_with_7 [] "application/zip" eq_refl eq_refl eq_refl eq_refl).
Defined.

(** An upload declared as an image is turned down whenever the original is
    not there as a decodable image, whatever the upload holds: for a sound
    asset no image is ever accepted.  Nothing changes. *)
Theorem image_upload_needs_image_original (root : path) (author : Z)
    (a : attachment) (rest : list attachment) (sp : path) (w : world)
    (out : list event) (ct : string) :
  Sql.select_user_id (assigned_files w) sp = Some author ->
  content_type a = Some ct -> String.prefix "image" ct = true ->
  (forall img, files w !! ((root ++ ["original_assets"]) ++ sp) <>
               Some (File (ImageBytes img))) ->
  exists e,
    submit_file root author (a :: rest) sp (w, out) =
      ((w, out ++ [Reply ("Failed to submit file: " +:+ exn_str e)]), Ok ()).
Proof.
  intros Hsel Hct Himg Horig.
  rewrite (submit_file_assigned _ _ _ _ _ _ _ Hsel), save_uploaded_file_run.
  rewrite Hct. unfold processed_upload. rewrite Himg.
  unfold process_image, open_path.
  destruct (files w !! ((root ++ ["original_assets"]) ++ sp))
    as [[[img | snd | text] |] |] eqn:E.
  - destruct (Horig img). reflexivity.
  - exists UnidentifiedImageError. reflexivity.
  - exists UnidentifiedImageError. reflexivity.
  - exists IsADirectoryError. reflexivity.
  - exists FileNotFoundError. reflexivity.
Qed.

Lemma image_upload_needs_image_original_witness :
  let ogg := AudioBytes {| channels := 1; frame_rate := 16000; samples := 1%N |} in
  let w := {| files := <[Sample.original_assets ++ ["a.png"] := File ogg]>
                         (files Sample.a_with_7);
              assigned_files := [(7, ["a.png"])] |} in
  Sql.select_user_id (assigned_files w) ["a.png"] = Some 7 /\
  exists e,
    submit_file Sample.pack 7 [Sample.upload 16 16] ["a.png"] (w, []) =
      ((w, [Reply ("Failed to submit file: " +:+ exn_str e)]), Ok ()).
Proof.
  intros ogg w. split; [reflexivity |].
  apply (image_upload_needs_image_original Sample.pack 7 (Sample.upload 16 16) []
           ["a.png"] w [] "image/png" eq_refl eq_refl eq_refl).
  intros img. vm_compute. discriminate.
Defined.

Lemma process_image_at_least_original (fs : tree) (original_path : path)
    (ox oy w h : Z) (opx px : pixels) :
  dim ox -> dim oy -> dim w -> dim h ->
  fs !! original_path =
    Some (File (ImageBytes {| img_size := (ox, oy); img_pixels := opx |})) ->
  ox <= w -> oy <= h ->
  1 <= Z.min (w / ox) (h / oy) /\
  exists px',
    process_image fs (ImageBytes {| img_size := (w, h); img_pixels := px |})
                  original_path =
      Ok (ImageBytes {| img_size := (Z.min (w / ox) (h / oy) * ox,
                                     Z.min (w / ox) (h / oy) * oy);
                        img_pixels := px' |}).
Proof.
  intros Hox Hoy Hw Hh Hfs Hwx Hhy.
  assert (Hk : 1 <= Z.min (w / ox) (h / oy)).
  { unfold dim in *.
    pose proof (Z.div_le_lower_bound w ox 1 ltac:(lia) ltac:(lia)).
    pose proof (Z.div_le_lower_bound h oy 1 ltac:(lia) ltac:(lia)). lia. }
  split; [exact Hk |].
  rewrite (process_image_unfold fs original_path ox oy w h opx px) by assumption.
  set (k := Z.min (w / ox) (h / oy)) in *.
  destruct (resize_positive
              {| img_size := (w, h); img_pixels := Converted "RGBA" px |}
              (k * ox, k * oy)) as ([sz px'] & -> & Hsz);
    [unfold dim in *; cbn; nia .. |].
  cbn in Hsz. subst sz. exists px'. reflexivity.
Qed.

(** An image upload that Pillow opens, that is one within its pixel limit,
    and that is at least as large as the original is accepted from the
    claimant: the new file is the upload cut to the largest whole multiple
    k of the original's size that fits, the original is removed and the row
    deleted. *)
Theorem image_upload_accepted (root : path) (author : Z)
    (a : attachment) (rest : list attachment) (sp : path) (w : world)
    (out : list event) (ct : string) (ox oy sw sh : Z) (opx spx : pixels) :
  let o := (root ++ ["original_assets"]) ++ sp in
  let d := root ++ ["new_assets"] ++ sp in
  let r := submit_file root author (a :: rest) sp (w, out) in
  let k := Z.min (sw / ox) (sh / oy) in
  Sql.select_user_id (assigned_files w) sp = Some author ->
  content_type a = Some ct -> String.prefix "image" ct = true ->
  data a = ImageBytes {| img_size := (sw, sh); img_pixels := spx |} ->
  files w !! o =
    Some (File (ImageBytes {| img_size := (ox, oy); img_pixels := opx |})) ->
  0 < ox <= sw -> 0 < oy <= sh ->
  PIL.within_pixel_limit (sw, sh) = true ->
  (forall q, q `prefix_of` d -> q <> d -> is_file (files w) q = false) ->
  is_dir (files w) d = false ->
  sp <> ["pack.mcmeta"] ->
  1 <= k /\
  (exists more, r.1.2 = out ++ Reply "File submitted." :: more) /\
  (exists px', files r.1.1 !! d =
     Some (File (ImageBytes {| img_size := (k * ox, k * oy);
                               img_pixels := px' |}))) /\
  is_file (files r.1.1) o = false /\
  assigned_files r.1.1 = Sql.delete_file_path sp (assigned_files w).
Proof.
  intros o d r k Hsel Hct Himg Hdata Horig Hx' Hy' Hlim Hfree Hnd Hsp.
  destruct (dims_within_pixel_limit ox oy sw sh Hx' Hy' Hlim)
    as (Hox & Hoy & Hsw & Hsh).
  assert (Hx : ox <= sw) by lia. assert (Hy : oy <= sh) by lia.
  destruct (process_image_at_least_original (files w) o ox oy sw sh opx spx
              Hox Hoy Hsw Hsh Horig Hx Hy) as (Hk & px' & Hp).
  split; [exact Hk |]. unfold r.
  rewrite (submit_file_accepted root author a rest sp w out ct
             (ImageBytes {| img_size := (k * ox, k * oy); img_pixels := px' |})
             Hsel Hct); [| | exact Hfree | exact Hnd].
  - destruct (accepted_submission_state root sp w out
                (ImageBytes {| img_size := (k * ox, k * oy); img_pixels := px' |})
                Hsp) as (H1 & H2 & H3 & H4).
    split; [exact H1 |]. split; [exists px'; exact H2 |]. split; assumption.
  - unfold processed_upload. rewrite Himg, Hdata. exact Hp.
Qed.

Lemma image_upload_accepted_witness :
  let d := Sample.pack ++ ["new_assets"] ++ ["a.png"] in
  let r := submit_file Sample.pack 7 [Sample.upload 50 40] ["a.png"]
             (Sample.a_with_7, []) in
  (0 < 16 <= 50 /\ 0 < 16 <= 40 /\ PIL.within_pixel_limit (50, 40) = true /\
   (forall q, q `prefix_of` d -> q <> d ->
              is_file (files Sample.a_with_7) q = false)) /\
  (exists px', files r.1.1 !! d =
     Some (File (ImageBytes {| img_size := (2 * 16, 2 * 16);
                               img_pixels := px' |}))) /\
  assigned_files r.1.1 = [].
Proof.
  intros d r.
  assert (D : 0 < 16 <= 50 /\ 0 < 16 <= 40 /\
              PIL.within_pixel_limit (50, 40) = true)
    by (split; [lia | split; [lia | reflexivity]]).
  destruct D as (D1 & D2 & D3).
  assert (Hfree : forall q, q `prefix_of` d -> q <> d ->
                            is_file (files Sample.a_with_7) q = false).
  { intros q Hq Hne. unfold is_file.
    destruct (files Sample.a_with_7 !! q) as [[b |] |] eqn:E; try reflexivity.
    exfalso. apply elem_of_map_to_list in E. vm_compute in E.
    repeat (apply elem_of_cons in E as [E | E];
            [first [discriminate E
                   | injection E as -> _; destruct Hq as [k Hk]; discriminate Hk] |]).
    apply elem_of_nil in E. exact E. }
  split; [repeat split; first [assumption | lia] |].
  destruct (image_upload_accepted Sample.pack 7 (Sample.upload 50 40) [] ["a.png"]
              Sample.a_with_7 [] "image/png" 16 16 50 40 (Pixels 1) (Pixels 9)
              eq_refl eq_refl eq_refl eq_refl eq_refl D1 D2 D3 Hfree
              eq_refl ltac:(discriminate))
    as (_ & _ & H1 & _ & H2).
  split; [exact H1 | exact H2].
Defined.

Lemma lookup_saved_other (fs : tree) (b : blob) (o d p : path) :
  p <> o -> p <> d -> ~ p `prefix_of` parent d -> saved fs b o d !! p = fs !! p.
Proof.
  intros H1 H2 H3. unfold saved. cbv zeta. destruct (is_file _ o).
  - rewrite lookup_delete_ne by congruence. rewrite lookup_insert_ne by congruence.
    rewrite lookup_with_dirs. apply decide_False, H3.
  - rewrite lookup_insert_ne by congruence.
    rewrite lookup_with_dirs. apply decide_False, H3.
Qed.

Lemma prefix_of_parent (l d : path) :
  l `prefix_of` d -> l <> d -> l `prefix_of` parent d.
Proof.
  intros [k ->] Hne. unfold parent.
  assert (Hk : k <> []) by (intros ->; rewrite app_nil_r in Hne; congruence).
  rewrite removelast_app by exact Hk. apply prefix_app_r. reflexivity.
Qed.

(** The submission for the last file left below [original_assets] sends
    the archive: it holds the file just saved under its relative path and
    the generated [pack.mcmeta], and every entry is a file of [new_assets]
    named by its path relative to it. *)
Theorem last_submission_sends_archive (root : path) (author : Z)
    (a : attachment) (rest : list attachment) (sp : path) (w : world)
    (out : list event) (ct : string) (b : blob) :
  let o := (root ++ ["original_assets"]) ++ sp in
  let d := root ++ ["new_assets"] ++ sp in
  let new_assets := root ++ ["new_assets"] in
  let r := submit_file root author (a :: rest) sp (w, out) in
  Sql.select_user_id (assigned_files w) sp = Some author ->
  content_type a = Some ct ->
  processed_upload (files w) ct a o = Ok b ->
  (forall q, q `prefix_of` d -> q <> d -> is_file (files w) q = false) ->
  is_dir (files w) d = false ->
  (forall p, (root ++ ["original_assets"]) `prefix_of` p -> p <> o ->
             is_file (files w) p = false) ->
  sp <> [] -> ~ ["pack.mcmeta"] `prefix_of` sp ->
  is_dir (files w) (new_assets ++ ["pack.mcmeta"]) = false ->
  exists zip,
    r.2 = Ok () /\
    r.1.2 = out ++ [Reply "File submitted."; ManagerEdit "Resource pack ready." zip] /\
    (sp, b) ∈ zip /\
    (["pack.mcmeta"], OtherBytes pack_mcmeta) ∈ zip /\
    forall rel b', (rel, b') ∈ zip ->
                   files r.1.1 !! (new_assets ++ rel) = Some (File b').
Proof.
  intros o d new_assets r Hsel Hct Hproc Hfree Hnd Hlast Hsp Hmc Hmd. unfold r.
  rewrite (submit_file_accepted root author a rest sp w out ct b Hsel Hct Hproc
             Hfree Hnd).
  fold o d. rewrite after_submitted_run. cbv zeta.
  cbn [files released with_files]. fold new_assets.
  set (fs1 := saved (files w) b o d).
  assert (Hod : o <> d) by apply original_is_not_dest.
  assert (Ed : d = new_assets ++ sp) by (unfold d, new_assets; apply app_assoc).
  assert (Hc : completion_check fs1 (root ++ ["original_assets"]) = true).
  { apply completion_check_spec. intros p Hp Hne.
    destruct (decide (p = o)) as [-> | Hpo]; [apply is_file_saved_original |].
    unfold is_file, fs1, o, d.
    rewrite lookup_saved_under_original by assumption.
    apply (Hlast p Hp Hpo). }
  rewrite Hc.
  assert (Hm_o : new_assets ++ ["pack.mcmeta"] <> o).
  { apply pack_mcmeta_not_under_original. apply prefix_app_r. reflexivity. }
  assert (Hm_d : new_assets ++ ["pack.mcmeta"] <> d).
  { rewrite Ed. intros E. apply app_inv_head in E. apply Hmc. rewrite <- E.
    reflexivity. }
  assert (Hm_p : ~ (new_assets ++ ["pack.mcmeta"]) `prefix_of` parent d).
  { intros H. apply Hmc. apply (prefix_app_inv new_assets). rewrite <- Ed.
    etransitivity; [exact H | apply parent_prefix]. }
  assert (E1 : is_dir fs1 (new_assets ++ ["pack.mcmeta"]) = false).
  { unfold is_dir, fs1. rewrite lookup_saved_other by assumption. exact Hmd. }
  rewrite E1.
  assert (Hn_d : new_assets <> d).
  { rewrite Ed. rewrite <- (app_nil_r new_assets) at 1. intros E.
    apply app_inv_head in E. congruence. }
  assert (Hn_o : new_assets <> o).
  { intros E. apply (new_assets_not_under_original root []).
    rewrite app_nil_r. fold new_assets. rewrite E. apply prefix_app_r.
    reflexivity. }
  assert (E2 : is_dir fs1 new_assets = true).
  { unfold is_dir, fs1, saved. cbv zeta.
    assert (Hl : <[d := File b]> (with_dirs (files w) (parent d)) !! new_assets
                 = Some Dir).
    { rewrite lookup_insert_ne by congruence. rewrite lookup_with_dirs.
      rewrite decide_True; [reflexivity |].
      apply prefix_of_parent; [| exact Hn_d]. rewrite Ed. apply prefix_app_r.
      reflexivity. }
    destruct (is_file _ o).
    - rewrite lookup_delete_ne by congruence. rewrite Hl. reflexivity.
    - rewrite Hl. reflexivity. }
  rewrite E2. cbn [negb].
  set (fs2 := <[new_assets ++ ["pack.mcmeta"] := File (OtherBytes pack_mcmeta)]> fs1).
  destruct (zip_entries_ok fs2 new_assets (get_resources fs2 new_assets))
    as (zip & -> & Hzip).
  { intros p Hp. apply elem_of_get_resources in Hp as (H1 & H2 & _). auto. }
  exists zip. split; [reflexivity |].
  split; [cbn; rewrite <- (app_assoc out); reflexivity |].
  split; [| split].
  - apply Hzip. rewrite <- Ed.
    assert (Hl : fs2 !! d = Some (File b)).
    { unfold fs2. rewrite lookup_insert_ne by exact Hm_d.
      apply lookup_saved_new, Hod. }
    split; [| exact Hl]. apply elem_of_get_resources.
    split; [unfold is_file; rewrite Hl; reflexivity |].
    split; [rewrite Ed; apply prefix_app_r; reflexivity | congruence].
  - apply Hzip.
    assert (Hl : fs2 !! (new_assets ++ ["pack.mcmeta"])
                 = Some (File (OtherBytes pack_mcmeta)))
      by apply lookup_insert_eq.
    split; [| exact Hl]. apply elem_of_get_resources.
    split; [unfold is_file; rewrite Hl; reflexivity |].
    split; [apply prefix_app_r; reflexivity |].
    rewrite <- (app_nil_r new_assets) at 2. intros E. apply app_inv_head in E.
    discriminate E.
  - intros rel b' Hin. apply Hzip in Hin as [_ Hl]. exact Hl.
Qed.

Lemma last_submission_sends_archive_witness :
  let processed := ImageBytes {| img_size := (32, 32);
                                 img_pixels := Resized 32 32
                                                 (Converted "RGBA" (Pixels 9)) |} in
  let r := submit_file Sample.pack 7 [Sample.upload 48 32] ["a.png"]
             (Sample.last_texture, []) in
  (Sql.select_user_id (assigned_files Sample.last_texture) ["a.png"] = Some 7 /\
   processed_upload (files Sample.last_texture) "image/png" (Sample.upload 48 32)
     (Sample.original_assets ++ ["a.png"]) = Ok processed) /\
  exists zip,
    r.2 = Ok () /\
    r.1.2 = [Reply "File submitted."; ManagerEdit "Resource pack ready." zip] /\
    (["a.png"], processed) ∈ zip /\
    (["pack.mcmeta"], OtherBytes pack_mcmeta) ∈ zip.
Proof.
  intros processed r.
  assert (Hp : processed_upload (files Sample.last_texture) "image/png"
                 (Sample.upload 48 32) (Sample.original_assets ++ ["a.png"])
               = Ok processed) by (vm_compute; reflexivity).
  split; [split; [reflexivity | exact Hp] |].
  destruct (last_submission_sends_archive Sample.pack 7 (Sample.upload 48 32) []
              ["a.png"] Sample.last_texture [] "image/png" processed
              eq_refl eq_refl Hp) as (zip & H1 & H2 & H3 & H4 & _).
  - intros q Hq Hne. unfold is_file.
    destruct (files Sample.last_texture !! q) as [[b |] |] eqn:E; try reflexivity.
    exfalso. apply elem_of_map_to_list in E. vm_compute in E.
    repeat (apply elem_of_cons in E as [E | E];
            [first [discriminate E
                   | injection E as -> _; destruct Hq as [k Hk]; discriminate Hk] |]).
    apply elem_of_nil in E. exact E.
  - reflexivity.
  - intros p Hp' Hne. unfold is_file.
    destruct (files Sample.last_texture !! p) as [[b |] |] eqn:E; try reflexivity.
    exfalso. apply elem_of_map_to_list in E. vm_compute in E.
    repeat (apply elem_of_cons in E as [E | E];
            [first [discriminate E
                   | injection E as -> _;
                     first [apply Hne; reflexivity
                           | destruct Hp' as [k Hk]; discriminate Hk]] |]).
    apply elem_of_nil in E. exact E.
  - discriminate.
  - intros [k Hk]. discriminate Hk.
  - reflexivity.
  - exists zip. repeat split; assumption.
Defined.

(** [assign_file] when the path has no row and the file can be read. *)
Lemma assign_file_run (root file_path : path) (user : Z) (dm : delivery)
    (w : world) (out : list event) (p : path) (b : blob) :
  relative_to file_path (root ++ ["original_assets"]) = Ok p ->
  Sql.select_user_id (assigned_files w) p = None ->
  files w !! file_path = Some (File b) ->
  assign_file root file_path user dm (w, out) =
  let w1 := {| files := files w;
               assigned_files := Sql.insert_or_replace user p (assigned_files w) |} in
  match dm with
  | Delivered url =>
      ((w1, out ++ [UserSend user p (name file_path) b;
                    FollowupSend ("File assigned. " +:+ url); AssignMsgEdit]),
       Ok ())
  | Refused Forbidden =>
      if is_done out then ((w1, out), Raise InteractionResponded)
      else
        ((w1, out ++ [ResponseSendMessage
                        "Please allow direct messages to receive your assigned file."]),
         Ok ())
  | Refused e => ((w1, out), Raise e)
  end.
Proof.
  intros Hrel Hsel Hfile. unfold assign_file. rewrite Hrel. step_action.
  rewrite Hsel. cbv beta iota delta [fst snd]. cbn [files assigned_files].
  unfold open_path. rewrite Hfile. cbv beta iota.
  destruct dm as [url | []];
    unfold response_send_message, emit; cbv beta iota delta [fst snd];
    rewrite <- ?(app_assoc out); reflexivity.
Qed.

(** A delivered assignment and the reply to it fit together: the user gets
    the bytes of the file under its own name, the footer leads back to the
    file, the table names the user as its claimant, and a submission for
    that footer from anyone else is turned down. *)
Theorem delivered_assignment_round_trip (root file_path : path) (user : Z)
    (url : string) (w : world) (out : list event) (p : path) (b : blob) :
  relative_to file_path (root ++ ["original_assets"]) = Ok p ->
  Sql.select_user_id (assigned_files w) p = None ->
  files w !! file_path = Some (File b) ->
  let r := assign_file root file_path user (Delivered url) (w, out) in
  r.2 = Ok () /\
  r.1.2 = out ++ [UserSend user p (name file_path) b;
                  FollowupSend ("File assigned. " +:+ url); AssignMsgEdit] /\
  files r.1.1 = files w /\
  (root ++ ["original_assets"]) ++ p = file_path /\
  Sql.select_user_id (assigned_files r.1.1) p = Some user /\
  forall other attachments out',
    other <> user ->
    submit_file root other attachments p (r.1.1, out') =
      ((r.1.1, out' ++ [Reply "This file is no longer assigned to you."]), Ok ()).
Proof.
  intros Hrel Hsel Hfile r. unfold r.
  rewrite (assign_file_run root file_path user (Delivered url) w out p b
             Hrel Hsel Hfile). cbv zeta. cbn [fst snd files assigned_files].
  assert (Hc : Sql.select_user_id
                 (Sql.insert_or_replace user p (assigned_files w)) p = Some user)
    by (apply select_user_id_after_insert, Hsel).
  repeat split; try reflexivity.
  - symmetry. apply relative_to_Ok, Hrel.
  - exact Hc.
  - intros other attachments out' Hne. apply submit_file_rejects_unassigned.
    cbn [assigned_files]. rewrite Hc. congruence.
Qed.

Lemma delivered_assignment_round_trip_witness :
  let file := Sample.original_assets ++ ["a.png"] in
  let r := assign_file Sample.pack file 7 (Delivered "url")
             (Sample.two_textures, []) in
  (relative_to file (Sample.pack ++ ["original_assets"]) = Ok ["a.png"] /\
   Sql.select_user_id (assigned_files Sample.two_textures) ["a.png"] = None) /\
  r.1.2 = [UserSend 7 ["a.png"] "a.png" (Sample.texture 1);
           FollowupSend "File assigned. url"; AssignMsgEdit] /\
  Sql.select_user_id (assigned_files r.1.1) ["a.png"] = Some 7.
Proof.
  intros file r. split; [split; reflexivity |].
  destruct (delivered_assignment_round_trip Sample.pack file 7 "url"
              Sample.two_textures [] ["a.png"] (Sample.texture 1)
              eq_refl eq_refl eq_refl) as (_ & H1 & _ & _ & H2 & _).
  split; [exact H1 | exact H2].
Defined.



Lemma elem_of_not_taken (t : table) (gen : list path) (root p : path) :
  p ∈ not_taken t gen root <->
  p ∈ gen /\ forall u rel, (u, rel) ∈ t -> p <> root ++ rel.
Proof.
  unfold not_taken, Sql.select_file_paths. rewrite list_elem_of_filter. split.
  - intros [Hno Hgen]. split; [exact Hgen |]. intros u rel Hin ->. apply Hno.
    apply list_elem_of_fmap. exists rel. split; [reflexivity |].
    apply list_elem_of_fmap. exists (u, rel). auto.
  - intros [Hgen Hno]. split; [| exact Hgen]. intros Hin.
    apply list_elem_of_fmap in Hin as (rel & -> & Hin).
    apply list_elem_of_fmap in Hin as ([u q] & E & Hin). cbn in E. subst q.
    exact (Hno u rel Hin eq_refl).
Qed.

Lemma get_random_unfold (catalog : tree -> path -> list path) (none : string)
    (root : path) (user : Z) (pick : nat) (dm : delivery)
    (w : world) (out : list event) :
  get_random catalog none root user pick dm (w, out) =
  let search := root ++ ["original_assets"] in
  let available := not_taken (assigned_files w) (catalog (files w) search) search in
  match available with
  | [] => ((w, out ++ [ResponseDefer; FollowupSend none]), Ok ())
  | _ :: _ =>
      match available !! (pick `mod` List.length available)%nat with
      | Some file => assign_file root file user dm (w, out ++ [ResponseDefer])
      | None => ((w, out ++ [ResponseDefer]), Raise IndexError)
      end
  end.
Proof.
  unfold get_random. step_action. cbv zeta.
  destruct (not_taken _ _ _) as [| f l] eqn:E.
  - rewrite <- (app_assoc out). reflexivity.
  - destruct (_ !! _); reflexivity.
Qed.

Lemma is_done_deferred (out : list event) : is_done (out ++ [ResponseDefer]) = true.
Proof. unfold is_done. rewrite existsb_app. apply orb_true_r. Qed.

(** A button either finds nothing to hand out, or claims for the user a
    file of its catalog that had no row; what it sends then depends on the
    direct message. *)
Lemma button_run (catalog : tree -> path -> list path) (none : string)
    (root : path) (user : Z) (pick : nat) (dm : delivery)
    (w : world) (out : list event) :
  (forall fs r p, p ∈ catalog fs r -> is_file fs p = true /\ r `prefix_of` p) ->
  let search := root ++ ["original_assets"] in
  let r := get_random catalog none root user pick dm (w, out) in
  files r.1.1 = files w /\
  ((not_taken (assigned_files w) (catalog (files w) search) search = [] /\
    r = ((w, out ++ [ResponseDefer; FollowupSend none]), Ok ())) \/
   (exists rel b,
      search ++ rel ∈ catalog (files w) search /\
      files w !! (search ++ rel) = Some (File b) /\
      (forall u, (u, rel) ∉ assigned_files w) /\
      assigned_files r.1.1 = Sql.insert_or_replace user rel (assigned_files w) /\
      match dm with
      | Delivered url =>
          r.1.2 = out ++ [ResponseDefer;
                          UserSend user rel (name (search ++ rel)) b;
                          FollowupSend ("File assigned. " +:+ url);
                          AssignMsgEdit] /\
          r.2 = Ok ()
      | Refused e =>
          r.1.2 = out ++ [ResponseDefer] /\
          r.2 = Raise match e with
                      | Forbidden => InteractionResponded
                      | _ => e
                      end
      end)).
Proof.
  intros Hcat search r. unfold r. rewrite get_random_unfold. cbv zeta.
  fold search.
  destruct (not_taken (assigned_files w) (catalog (files w) search) search)
    as [| f l] eqn:E.
  { split; [reflexivity |]. left. auto. }
  rewrite <- E.
  assert (Hlen : (pick `mod` List.length
                    (not_taken (assigned_files w) (catalog (files w) search) search)
                  < List.length
                    (not_taken (assigned_files w) (catalog (files w) search) search))%nat).
  { apply Nat.mod_upper_bound. rewrite E. discriminate. }
  apply lookup_lt_is_Some_2 in Hlen as [file Hfile]. rewrite Hfile.
  apply list_elem_of_lookup_2, elem_of_not_taken in Hfile as [Hgen Hno].
  destruct (Hcat _ _ _ Hgen) as [Hf Hp].
  destruct (relative_to_prefix file search Hp) as (rel & Hrel & ->).
  assert (Hfree : forall u, (u, rel) ∉ assigned_files w).
  { intros u Hin. exact (Hno u rel Hin eq_refl). }
  assert (Hsel : Sql.select_user_id (assigned_files w) rel = None)
    by (apply select_user_id_None, Hfree).
  unfold is_file in Hf.
  destruct (files w !! (search ++ rel)) as [[b |] |] eqn:Eb; try discriminate.
  rewrite (assign_file_run root (search ++ rel) user dm w (out ++ [ResponseDefer])
             rel b Hrel Hsel Eb). cbv zeta.
  destruct dm as [url | e].
  - split; [reflexivity |]. right. exists rel, b.
    repeat split; try assumption; try reflexivity.
    cbn [fst snd]. rewrite <- (app_assoc out). reflexivity.
  - destruct e; rewrite ?is_done_deferred;
      (split; [reflexivity |]); right; exists rel, b;
      repeat split; try assumption; reflexivity.
Qed.

Lemma get_textures_below (fs : tree) (root p : path) :
  p ∈ get_textures fs root -> is_file fs p = true /\ root `prefix_of` p.
Proof.
  unfold get_textures. rewrite list_elem_of_filter, elem_of_get_resources.
  intros (_ & Hf & Hp & _). split; [exact Hf |].
  destruct (is_dir fs (root ++ ["assets"; "minecraft"])); [| exact Hp].
  eapply prefix_app_l. exact Hp.
Qed.

Lemma get_sounds_below (fs : tree) (root p : path) :
  p ∈ get_sounds fs root -> is_file fs p = true /\ root `prefix_of` p.
Proof.
  unfold get_sounds. rewrite list_elem_of_filter, elem_of_get_resources.
  intros (_ & Hf & Hp & _). auto.
Qed.

(** The texture button never hands out a claimed file.  It leaves the files
    alone and either reports that no texture is available, changing
    nothing, or gives the user the row of a texture that had no row.  Then
    a delivered file is followed by the confirmation; a failed direct
    message makes the button raise with nothing more sent, and the user who
    does not accept direct messages is not told: the response was deferred,
    so the notice of line 344 raises [InteractionResponded]. *)
Theorem texture_button_claims_unclaimed_texture (root : path) (user : Z)
    (pick : nat) (dm : delivery) (w : world) (out : list event) :
  let search := root ++ ["original_assets"] in
  let r := get_random_texture root user pick dm (w, out) in
  files r.1.1 = files w /\
  ((not_taken (assigned_files w) (get_textures (files w) search) search = [] /\
    r = ((w, out ++ [ResponseDefer; FollowupSend "No available textures."]),
         Ok ())) \/
   (exists rel b,
      search ++ rel ∈ get_textures (files w) search /\
      files w !! (search ++ rel) = Some (File b) /\
      (forall u, (u, rel) ∉ assigned_files w) /\
      assigned_files r.1.1 = Sql.insert_or_replace user rel (assigned_files w) /\
      match dm with
      | Delivered url =>
          r.1.2 = out ++ [ResponseDefer;
                          UserSend user rel (name (search ++ rel)) b;
                          FollowupSend ("File assigned. " +:+ url);
                          AssignMsgEdit] /\
          r.2 = Ok ()
      | Refused e =>
          r.1.2 = out ++ [ResponseDefer] /\
          r.2 = Raise match e with
                      | Forbidden => InteractionResponded
                      | _ => e
                      end
      end)).
Proof.
  exact (button_run get_textures "No available textures." root user pick dm w out
           get_textures_below).
Qed.

(** The sound button, likewise: nothing available and nothing changed, or
    the row of a sound that had no row, with the confirmation after a
    delivered file and an exception, nothing more sent, after a failed
    direct message. *)
Theorem sound_button_claims_unclaimed_sound (root : path) (user : Z)
    (pick : nat) (dm : delivery) (w : world) (out : list event) :
  let search := root ++ ["original_assets"] in
  let r := get_random_sound root user pick dm (w, out) in
  files r.1.1 = files w /\
  ((not_taken (assigned_files w) (get_sounds (files w) search) search = [] /\
    r = ((w, out ++ [ResponseDefer; FollowupSend "No available sounds."]),
         Ok ())) \/
   (exists rel b,
      search ++ rel ∈ get_sounds (files w) search /\
      files w !! (search ++ rel) = Some (File b) /\
      (forall u, (u, rel) ∉ assigned_files w) /\
      assigned_files r.1.1 = Sql.insert_or_replace user rel (assigned_files w) /\
      match dm with
      | Delivered url =>
          r.1.2 = out ++ [ResponseDefer;
                          UserSend user rel (name (search ++ rel)) b;
                          FollowupSend ("File assigned. " +:+ url);
                          AssignMsgEdit] /\
          r.2 = Ok ()
      | Refused e =>
          r.1.2 = out ++ [ResponseDefer] /\
          r.2 = Raise match e with
                      | Forbidden => InteractionResponded
                      | _ => e
                      end
      end)).
Proof.
  exact (button_run get_sounds "No available sounds." root user pick dm w out
           get_sounds_below).
Qed.

(** When every texture of the catalog is out with someone, the texture
    button only says so. *)
Theorem texture_button_when_all_claimed (root : path) (user : Z)
    (pick : nat) (dm : delivery) (w : world) (out : list event) :
  let search := root ++ ["original_assets"] in
  (forall p, p ∈ get_textures (files w) search ->
             exists u rel, (u, rel) ∈ assigned_files w /\ p = search ++ rel) ->
  get_random_texture root user pick dm (w, out) =
    ((w, out ++ [ResponseDefer; FollowupSend "No available textures."]), Ok ()).
Proof.
  intros search Hall. unfold get_random_texture. rewrite get_random_unfold.
  cbv zeta. fold search.
  destruct (not_taken (assigned_files w) (get_textures (files w) search) search)
    as [| f l] eqn:E; [reflexivity | exfalso].
  assert (Hin : f ∈ not_taken (assigned_files w)
                      (get_textures (files w) search) search)
    by (rewrite E; apply elem_of_cons; auto).
  apply elem_of_not_taken in Hin as [Hgen Hno].
  destruct (Hall f Hgen) as (u & rel & Hrow & ->).
  exact (Hno u rel Hrow eq_refl).
Qed.

Lemma texture_button_when_all_claimed_witness :
  let search := Sample.pack ++ ["original_assets"] in
  (forall p, p ∈ get_textures (files Sample.last_texture) search ->
     exists u rel, (u, rel) ∈ assigned_files Sample.last_texture /\
                   p = search ++ rel) /\
  get_random_texture Sample.pack 8 0 (Delivered "url") (Sample.last_texture, []) =
    ((Sample.last_texture,
      [ResponseDefer; FollowupSend "No available textures."]), Ok ()).
Proof.
  intros search.
  assert (H : forall p, p ∈ get_textures (files Sample.last_texture) search ->
     exists u rel, (u, rel) ∈ assigned_files Sample.last_texture /\
                   p = search ++ rel).
  { intros p Hp. vm_compute in Hp. apply list_elem_of_singleton in Hp as ->.
    exists 7, ["a.png"]. split; [apply elem_of_cons; left |]; reflexivity. }
  split; [exact H |].
  exact (texture_button_when_all_claimed Sample.pack 8 0 (Delivered "url")
           Sample.last_texture [] H).
Defined.

Lemma keys_sorted_filter (P : Z * path -> Prop) `{forall x, Decision (P x)}
    (t : table) :
  StronglySorted Z.lt t.*1 -> StronglySorted Z.lt (filter P t).*1.
Proof.
  induction t as [| x t IH]; [intros _; constructor |].
  rewrite fmap_cons, StronglySorted_cons. intros [Hall Hs].
  rewrite filter_cons. destruct (decide (P x)); [| apply IH, Hs].
  rewrite fmap_cons. apply StronglySorted_cons. split; [| apply IH, Hs].
  rewrite Forall_forall in Hall. apply Forall_forall. intros k Hk. apply Hall.
  apply list_elem_of_fmap in Hk as (y & -> & Hy).
  apply list_elem_of_filter in Hy as [_ Hy].
  apply list_elem_of_fmap. exists y. auto.
Qed.

Lemma keys_sorted_insert_row (r : Z * path) (t : table) :
  StronglySorted Z.lt t.*1 -> r.1 ∉ t.*1 ->
  StronglySorted Z.lt (Sql.insert_row r t).*1.
Proof.
  induction t as [| x t IH]; cbn [Sql.insert_row].
  - intros _ _. cbn. apply StronglySorted_cons. split; constructor.
  - cbn. rewrite StronglySorted_cons. intros [Hall Hs] Hni.
    rewrite Forall_forall in Hall.
    destruct (Z.ltb_spec r.1 x.1) as [Hlt | Hge].
    + cbn. apply StronglySorted_cons. split.
      * apply Forall_cons. split; [exact Hlt |]. apply Forall_forall.
        intros k Hk. specialize (Hall k Hk). lia.
      * apply StronglySorted_cons. split; [apply Forall_forall, Hall | exact Hs].
    + cbn. apply StronglySorted_cons. split.
      * apply Forall_forall. intros k Hk.
        apply list_elem_of_fmap in Hk as (y & -> & Hy).
        apply elem_of_insert_row in Hy as [-> | Hy].
        -- assert (r.1 <> x.1) by (intros E; apply Hni; rewrite E;
                                    apply elem_of_cons; auto).
           lia.
        -- apply Hall. apply list_elem_of_fmap. exists y. auto.
      * apply IH; [exact Hs |]. intros Hin. apply Hni, elem_of_cons. auto.
Qed.

Lemma table_ok_insert_or_replace (u : Z) (p : path) (t : table) :
  Sql.select_user_id t p = None -> table_ok t ->
  table_ok (Sql.insert_or_replace u p t).
Proof.
  intros Hsel [Hs Hnd]. split.
  - unfold Sql.insert_or_replace. apply keys_sorted_insert_row.
    + apply keys_sorted_filter, Hs.
    + cbn. intros Hin. apply list_elem_of_fmap in Hin as (y & E & Hy).
      apply list_elem_of_filter in Hy as [Hne _]. congruence.
  - apply paths_unique_insert_or_replace; assumption.
Qed.

Lemma table_ok_delete (p : path) (t : table) :
  table_ok t -> table_ok (Sql.delete_file_path p t).
Proof.
  intros [Hs Hnd]. split.
  - apply keys_sorted_filter, Hs.
  - apply paths_unique_delete, Hnd.
Qed.

(** [assign_file] keeps the table well formed: one row per user, in the
    order of the user ids, and one row per asset path. *)
Theorem assign_file_keeps_table_ok (root file_path : path) (user : Z)
    (dm : delivery) (w : world) (out : list event) :
  table_ok (assigned_files w) ->
  table_ok (assigned_files (assign_file root file_path user dm (w, out)).1.1).
Proof.
  intros Hok.
  destruct (relative_to file_path (root ++ ["original_assets"])) as [p | e] eqn:Hrel.
  - destruct (Sql.select_user_id (assigned_files w) p) as [u |] eqn:Hsel.
    + rewrite (assign_file_conflict root file_path user dm w out p u Hrel Hsel).
      exact Hok.
    + destruct (assign_file_claimed root file_path user dm w out p Hrel Hsel)
        as (out' & r & ->).
      apply table_ok_insert_or_replace; assumption.
  - unfold assign_file. rewrite Hrel. exact Hok.
Qed.

Lemma assign_file_keeps_table_ok_witness :
  table_ok (assigned_files Sample.a_with_7) /\
  table_ok (assigned_files
              (assign_file Sample.pack (Sample.original_assets ++ ["b.png"]) 3
                 (Delivered "url") (Sample.a_with_7, [])).1.1).
Proof.
  assert (H : table_ok (assigned_files Sample.a_with_7)).
  { split; cbn.
    - apply StronglySorted_cons. split; constructor.
    - apply NoDup_cons. split; [apply not_elem_of_nil | apply NoDup_nil_2]. }
  split; [exact H |].
  exact (assign_file_keeps_table_ok Sample.pack
           (Sample.original_assets ++ ["b.png"]) 3 (Delivered "url")
           Sample.a_with_7 [] H).
Defined.

Lemma submit_file_table (root : path) (author : Z)
    (attachments : list attachment) (sp : path) (w : world) (out : list event) :
  let t' := assigned_files (submit_file root author attachments sp (w, out)).1.1 in
  t' = assigned_files w \/ t' = Sql.delete_file_path sp (assigned_files w).
Proof.
  cbv zeta.
  destruct (decide (Sql.select_user_id (assigned_files w) sp = Some author))
    as [Hsel | Hsel].
  2:{ rewrite (submit_file_rejects_unassigned _ _ _ _ _ _ Hsel). auto. }
  destruct attachments as [| a rest].
  { rewrite (submit_file_no_attachment _ _ _ _ _ Hsel). auto. }
  rewrite (submit_file_assigned _ _ _ _ _ _ _ Hsel), save_uploaded_file_run.
  destruct (content_type a) as [ct |]; [| auto].
  destruct (processed_upload (files w) ct a _) as [b | e]; [| auto].
  destruct (is_file (files w) _); [auto |].
  destruct (existsb _ _); [auto |].
  destruct (is_dir _ _); [auto |].
  destruct (after_submitted_files root
              (released (with_files w (saved (files w) b
                 ((root ++ ["original_assets"]) ++ sp)
                 (root ++ ["new_assets"] ++ sp))) sp) out) as (Ht & _ & _).
  right. rewrite Ht. reflexivity.
Qed.

(** [submit_file] keeps the table well formed, and the only rows it ever
    removes are those of the path submitted for: every other claim stays
    as it is. *)
Theorem submit_file_keeps_other_claims (root : path) (author : Z)
    (attachments : list attachment) (sp : path) (w : world) (out : list event) :
  table_ok (assigned_files w) ->
  let t' := assigned_files (submit_file root author attachments sp (w, out)).1.1 in
  table_ok t' /\
  forall u q, q <> sp -> ((u, q) ∈ t' <-> (u, q) ∈ assigned_files w).
Proof.
  intros Hok t'. unfold t'.
  destruct (submit_file_table root author attachments sp w out) as [-> | ->].
  - split; [exact Hok | tauto].
  - split; [apply table_ok_delete, Hok |].
    intros u q Hne. unfold Sql.delete_file_path. rewrite list_elem_of_filter.
    cbn. tauto.
Qed.

Lemma submit_file_keeps_other_claims_witness :
  let w := {| files := files Sample.two_textures;
              assigned_files := [(3, ["b.png"]); (7, ["a.png"])] |} in
  let t' := assigned_files
              (submit_file Sample.pack 7 [Sample.upload 48 32] ["a.png"] (w, [])).1.1 in
  table_ok (assigned_files w) /\ table_ok t' /\ (3, ["b.png"]) ∈ t'.
Proof.
  intros w t'.
  assert (H : table_ok (assigned_files w)).
  { split; cbn.
    - apply StronglySorted_cons. split.
      + apply Forall_cons. split; [lia | constructor].
      + apply StronglySorted_cons. split; constructor.
    - apply NoDup_cons. split.
      + intros Hin. apply list_elem_of_singleton in Hin. discriminate Hin.
      + apply NoDup_cons. split; [apply not_elem_of_nil | apply NoDup_nil_2]. }
  split; [exact H |].
  destruct (submit_file_keeps_other_claims Sample.pack 7 [Sample.upload 48 32]
              ["a.png"] w [] H) as [H1 H2].
  split; [exact H1 |].
  apply (H2 3 ["b.png"]); [discriminate |]. apply elem_of_cons. left. reflexivity.
Defined.

(** [create_final_zip] on an existing pack directory always returns an
    archive: it holds exactly the files below the pack root, each under its
    path relative to the root, with [pack.mcmeta] (written first, over any
    earlier one) among them; nothing else on disk changes. *)
Theorem create_final_zip_holds_the_pack (pack_root_path : path) (w : world)
    (out : list event) :
  let mcmeta := pack_root_path ++ ["pack.mcmeta"] in
  let fs := <[mcmeta := File (OtherBytes pack_mcmeta)]> (files w) in
  is_dir (files w) pack_root_path = true ->
  is_dir (files w) mcmeta = false ->
  exists zip,
    create_final_zip pack_root_path (w, out) = ((with_files w fs, out), Ok zip) /\
    (["pack.mcmeta"], OtherBytes pack_mcmeta) ∈ zip /\
    forall rel b, (rel, b) ∈ zip <->
                  rel <> [] /\ fs !! (pack_root_path ++ rel) = Some (File b).
Proof.
  intros mcmeta fs Hroot Hmc. unfold create_final_zip.
  unfold mbind at 1 2, action_bind. rewrite write_file_run. fold mcmeta.
  unfold mcmeta at 2. rewrite parent_snoc, Hmc, Hroot. cbn [negb].
  fold fs. step_action. cbn [files with_files].
  destruct (zip_entries_ok fs pack_root_path (get_resources fs pack_root_path))
    as (zip & -> & Hzip).
  { intros p Hp. apply elem_of_get_resources in Hp as (H1 & H2 & _). auto. }
  assert (Hiff : forall rel b, (rel, b) ∈ zip <->
            rel <> [] /\ fs !! (pack_root_path ++ rel) = Some (File b)).
  { intros rel b. rewrite Hzip, elem_of_get_resources. split.
    - intros [(_ & _ & Hne) Hl]. split; [| exact Hl].
      intros ->. apply Hne, app_nil_r.
    - intros [Hne Hl]. split; [| exact Hl].
      split; [unfold is_file; rewrite Hl; reflexivity |].
      split; [apply prefix_app_r; reflexivity |].
      rewrite <- (app_nil_r pack_root_path) at 2. intros E.
      apply app_inv_head in E. contradiction. }
  exists zip. split; [reflexivity |]. split; [| exact Hiff].
  apply Hiff. split; [discriminate |]. apply lookup_insert_eq.
Qed.

Lemma create_final_zip_holds_the_pack_witness :
  (is_dir (files Sample.last_texture) (Sample.pack ++ ["original_assets"]) = true /\
   is_dir (files Sample.last_texture)
     ((Sample.pack ++ ["original_assets"]) ++ ["pack.mcmeta"]) = false) /\
  exists zip,
    create_final_zip (Sample.pack ++ ["original_assets"]) (Sample.last_texture, [])
    = ((with_files Sample.last_texture
          (<[(Sample.pack ++ ["original_assets"]) ++ ["pack.mcmeta"] :=
               File (OtherBytes pack_mcmeta)]> (files Sample.last_texture)), []),
       Ok zip) /\
    (["pack.mcmeta"], OtherBytes pack_mcmeta) ∈ zip /\
    forall rel b, (rel, b) ∈ zip <->
      rel <> [] /\
      <[(Sample.pack ++ ["original_assets"]) ++ ["pack.mcmeta"] :=
          File (OtherBytes pack_mcmeta)]> (files Sample.last_texture)
        !! ((Sample.pack ++ ["original_assets"]) ++ rel) = Some (File b).
Proof.
  split; [split; vm_compute; reflexivity |].
  apply (create_final_zip_holds_the_pack (Sample.pack ++ ["original_assets"])
           Sample.last_texture []); vm_compute; reflexivity.
Defined.

End HandlerFacts.

(** ** Reading the link of the assignment message *)

Section LinkFacts.

Import Link.

Lemma append_cons (c : ascii) (a b : string) : String c a +:+ b = String c (a +:+ b).
Proof. reflexivity. Qed.

Lemma append_nil (b : string) : EmptyString +:+ b = b.
Proof. reflexivity. Qed.

Lemma rfind_from_absent (sub s : string) (i : nat) (found : option nat) :
  occurs sub s = false -> rfind_from sub s i found = found.
Proof.
  revert i found. induction s as [| c s IH]; intros i found; cbn [occurs rfind_from].
  - rewrite orb_false_r. intros ->. reflexivity.
  - intros H. apply orb_false_iff in H as [-> H]. apply IH, H.
Qed.

Lemma rfind_from_skip (sub pre s : string) (i : nat) (found : option nat) :
  exists found',
    rfind_from sub (pre +:+ s) i found =
    rfind_from sub s (i + String.length pre) found'.
Proof.
  revert i found. induction pre as [| c pre IH]; intros i found.
  - exists found. rewrite append_nil, Nat.add_0_r. reflexivity.
  - rewrite append_cons. cbn [rfind_from String.length].
    match goal with
    | |- context [rfind_from sub _ (S i) ?f] =>
        destruct (IH (S i) f) as [f' Hf']
    end.
    exists f'. rewrite Hf'. f_equal. lia.
Qed.

(** [rfind] lands on an occurrence that no later one follows. *)
Lemma rfind_last (sub pre s : string) :
  String.prefix sub s = true ->
  match s with
  | EmptyString => True
  | String _ s' => occurs sub s' = false
  end ->
  rfind sub (pre +:+ s) = Some (String.length pre).
Proof.
  intros Hp Hlater. unfold rfind.
  destruct (rfind_from_skip sub pre s 0 None) as [f' ->]. cbn [Nat.add].
  destruct s as [| c s']; cbn [rfind_from]; rewrite Hp; [reflexivity |].
  apply rfind_from_absent, Hlater.
Qed.

Lemma prefix_append (s t : string) : String.prefix s (s +:+ t) = true.
Proof.
  induction s as [| c s IH]; [destruct t; reflexivity |].
  rewrite append_cons. cbn [String.prefix].
  destruct (ascii_dec c c) as [_ | Hne]; [exact IH | congruence].
Qed.

Lemma occurs_without_h (s : string) :
  has_char "h" s = false -> occurs find_str s = false.
Proof.
  induction s as [| c s IH]; [reflexivity |].
  cbn [has_char occurs]. intros H. apply orb_false_iff in H as [Hc Hs].
  rewrite (IH Hs), orb_false_r. unfold find_str. cbn [String.prefix].
  destruct (ascii_dec "h" c) as [<- | _]; [discriminate Hc | reflexivity].
Qed.

Lemma drop_chars_append (a b : string) : drop_chars (String.length a) (a +:+ b) = b.
Proof.
  induction a as [| c a IH]; [destruct b; reflexivity |].
  rewrite append_cons. exact IH.
Qed.

Lemma drop_chars_add (n m : nat) (s : string) :
  drop_chars (n + m) s = drop_chars m (drop_chars n s).
Proof.
  revert s. induction n as [| n IH]; intros s; [reflexivity |].
  destruct s as [| c s]; cbn; [destruct m; reflexivity | apply IH].
Qed.

Lemma cut_absent (sep : ascii) (s : string) :
  has_char sep s = false -> cut sep s = None.
Proof.
  induction s as [| c s IH]; [reflexivity |]. cbn. intros H.
  apply orb_false_iff in H as [-> H]. rewrite (IH H). reflexivity.
Qed.

Lemma cut_first (sep : ascii) (a b : string) :
  has_char sep a = false -> cut sep (a +:+ String sep b) = Some (a, b).
Proof.
  induction a as [| c a IH].
  - intros _. rewrite append_nil. cbn [cut]. rewrite Ascii.eqb_refl. reflexivity.
  - rewrite append_cons. cbn [cut has_char]. intros H.
    apply orb_false_iff in H as [-> H]. rewrite (IH H). reflexivity.
Qed.

Lemma has_char_append (c : ascii) (a b : string) :
  has_char c (a +:+ b) = has_char c a || has_char c b.
Proof.
  induction a as [| x a IH]; [reflexivity |].
  rewrite append_cons. cbn [has_char]. rewrite IH. apply orb_assoc.
Qed.

(** The link written into the assignment message is read back: for a
    description that ends with [https://discord.com/channels/g/c/m], with
    nothing in the ids that could start another link, the channel id is
    [c] and the message id is [m], whatever text comes before. *)
Theorem jump_ids_round_trip (pre g c m : string) :
  has_char "/" g = false -> has_char "/" c = false -> has_char " " m = false ->
  has_char "h" (g +:+ "/" +:+ c +:+ "/" +:+ m) = false ->
  jump_ids (pre +:+ find_str +:+ g +:+ "/" +:+ c +:+ "/" +:+ m) = Some (c, m).
Proof.
  intros Hg Hc Hm Hh. unfold jump_ids.
  set (tail := g +:+ "/" +:+ c +:+ "/" +:+ m) in *.
  assert (Er : rfind find_str (pre +:+ find_str +:+ tail)
               = Some (String.length pre)).
  { apply rfind_last; [apply prefix_append |].
    pose proof (occurs_without_h tail Hh) as Ho.
    unfold find_str. rewrite !append_cons, append_nil.
    cbn [occurs String.prefix]. cbn. exact Ho. }
  rewrite Er, drop_chars_add, !drop_chars_append. unfold tail.
  cbn [split]. rewrite !(append_cons "/" ""), !append_nil.
  rewrite (cut_first "/" g _ Hg), (cut_first "/" c _ Hc).
  rewrite (cut_absent " " m Hm). reflexivity.
Qed.

Lemma jump_ids_round_trip_witness :
  (has_char "/" "1" = false /\ has_char "/" "22" = false /\
   has_char " " "333" = false /\ has_char "h" "1/22/333" = false) /\
  jump_ids ("Assigned from: " +:+ find_str +:+ "1" +:+ "/" +:+ "22" +:+ "/" +:+ "333")
  = Some ("22"%string, "333"%string).
Proof.
  split; [repeat split |].
  exact (jump_ids_round_trip "Assigned from: " "1" "22" "333"
           eq_refl eq_refl eq_refl eq_refl).
Defined.

(** A description without the link is passed over: the handler returns
    before it looks anything up. *)
Lemma jump_ids_without_link (description : string) :
  occurs find_str description = false -> jump_ids description = None.
Proof.
  intros H. unfold jump_ids, rfind. rewrite (rfind_from_absent _ _ _ _ H).
  reflexivity.
Qed.

End LinkFacts.
